(** * jasmine-as-promised: promise-returning steps for Jasmine's [runs]

    A shallow embedding of [src/jasmine-as-promised.js].  The program is a
    handful of JavaScript closures over two mutable variables
    ([duckPunchedAlready], and one [result] per interceptor activation) and
    over the host framework's objects.  Closures are first-order data
    ([closure]) interpreted by [call]; JavaScript objects live in a heap of
    property maps; exceptions are an explicit [Throw] outcome that keeps the
    state reached when the exception was raised. *)

From Stdlib Require Import ZArith String List Bool Lia.
From stdpp Require Import base option list gmap strings.

Local Open Scope string_scope.
Local Open Scope list_scope.

(** ** Values and objects *)

(** JavaScript values.  Numbers are the integers; objects and functions are
    references into the heap. *)
Inductive value :=
| VUndefined
| VNull
| VBool (b : bool)
| VNum (n : Z)
| VStr (s : string)
| VRef (l : nat).

#[global] Instance value_eq_dec : EqDecision value.
Proof. solve_decision. Defined.

(** What a [throw] carries. *)
Inductive exn :=
| TypeError
| ReferenceError (name : string)
| RangeError
| Error (message : string)
| Thrown (v : value).

(** The function values of the program, each with the variables it closes
    over (line numbers are those of [src/jasmine-as-promised.js]). *)
Inductive closure :=
| HostRuns                                  (* the host's original Spec.prototype.runs *)
| HostWaitsFor                              (* the host's original Spec.prototype.waitsFor *)
| Interceptor (runs waitsFor : value)       (* l.155: closes over runs, waitsFor *)
| InterceptorToString (runs : value)        (* l.203: closes over runs *)
| OnReleaseWait (result : nat)              (* l.158: closes over result *)
| Adapter (runFn : value) (result : nat) (onReleaseWait : value)
                                            (* l.167: closes over runFn, onReleaseWait *)
| LatchCheck (result : nat)                 (* l.185: closes over result *)
| PromiseThen (p : nat)                     (* the then of the deferred computation p *)
| UserFn (id : nat).                        (* a function written by the test author *)

(** An object is a property map; a function object also has code.  The map
    holds what a property read returns, inherited properties included. *)
Record object := mkObject {
  code : option closure;
  props : gmap string value
}.

Definition empty_object : object := mkObject None ∅.

(** A reference outside the heap reads as an object without properties. *)
Definition obj_at (h : list object) (l : nat) : object :=
  default empty_object (h !! l).

(** ** Deferred computations and the host's queue *)

Inductive settlement :=
| Fulfilled (v : value)
| Rejected (reason : value).

(** A deferred computation: how it settled, if it has, and the callback
    pairs registered through [then] and not yet run. *)
Record promise := mkPromise {
  settled : option settlement;
  reactions : list (value * value)
}.

(** Modelled from the spec: the blocks of the host's runner loop (sections 5
    and 6).  The step-running primitive [runStep(body)] and the
    poll-until-true primitive [waitUntil(condition, timeoutMs?)] return at
    once and leave a block in the queue of the current spec; the runner
    executes the blocks in order. *)
Inductive block :=
| Block (spec func : value)
| WaitsForBlock (spec latchFunction timeout : value) (waited : Z).

Inductive failure :=
| StepThrew (e : exn)
| TimedOut.

(** ** Program state *)

Record state := mkState {
  duckPunchedAlready : bool;          (* l.120 *)
  results : list bool;                (* l.157: one [result] per activation *)
  heap : list object;
  promises : list promise;
  queue : list block;
  failures : list failure;
  calls : list (nat * value * list value)   (* ghost: calls of user functions *)
}.

Definition set_duckPunchedAlready (b : bool) (st : state) : state :=
  mkState b (results st) (heap st) (promises st) (queue st) (failures st) (calls st).
Definition set_results (r : list bool) (st : state) : state :=
  mkState (duckPunchedAlready st) r (heap st) (promises st) (queue st) (failures st) (calls st).
Definition set_heap (h : list object) (st : state) : state :=
  mkState (duckPunchedAlready st) (results st) h (promises st) (queue st) (failures st) (calls st).
Definition set_promises (p : list promise) (st : state) : state :=
  mkState (duckPunchedAlready st) (results st) (heap st) p (queue st) (failures st) (calls st).
Definition set_queue (q : list block) (st : state) : state :=
  mkState (duckPunchedAlready st) (results st) (heap st) (promises st) q (failures st) (calls st).
Definition set_failures (f : list failure) (st : state) : state :=
  mkState (duckPunchedAlready st) (results st) (heap st) (promises st) (queue st) f (calls st).
Definition set_calls (c : list (nat * value * list value)) (st : state) : state :=
  mkState (duckPunchedAlready st) (results st) (heap st) (promises st) (queue st) (failures st) c.

(** ** The evaluation monad: state and exceptions *)

Inductive outcome (A : Type) :=
| Ok (a : A) (st : state)
| Throw (e : exn) (st : state).
Arguments Ok {A} a st.
Arguments Throw {A} e st.

Definition M (A : Type) : Type := state -> outcome A.

Definition ret {A} (a : A) : M A := fun st => Ok a st.
Definition throw {A} (e : exn) : M A := fun st => Throw e st.
Definition bind {A B} (m : M A) (k : A -> M B) : M B :=
  fun st => match m st with
            | Ok a st' => k a st'
            | Throw e st' => Throw e st'
            end.

Notation "'do' x <- m ; k" := (bind m (fun x => k))
  (at level 10, x name, m at level 100, k at level 200).

Definition final {A} (o : outcome A) : state :=
  match o with Ok _ st => st | Throw _ st => st end.

(** ** JavaScript primitives *)

(** [typeof x] *)
Definition typeof (h : list object) (x : value) : string :=
  match x with
  | VUndefined => "undefined"
  | VNull => "object"
  | VBool _ => "boolean"
  | VNum _ => "number"
  | VStr _ => "string"
  | VRef l => match code (obj_at h l) with Some _ => "function" | None => "object" end
  end.

Definition js_typeof (x : value) : M value :=
  fun st => Ok (VStr (typeof (heap st) x)) st.

(** ToBoolean *)
Definition truthy (x : value) : bool :=
  match x with
  | VUndefined | VNull => false
  | VBool b => b
  | VNum n => negb (n =? 0)%Z
  | VStr s => negb (String.eqb s "")
  | VRef _ => true
  end.

(** [x.k]: a TypeError on undefined and null; primitives have none of the
    properties the program reads. *)
Definition get_prop (x : value) (k : string) : M value :=
  fun st => match x with
            | VUndefined | VNull => Throw TypeError st
            | VRef l => Ok (default VUndefined (props (obj_at (heap st) l) !! k)) st
            | _ => Ok VUndefined st
            end.

(** [x.k = v] in strict mode: a TypeError unless x is an object. *)
Definition set_prop (x : value) (k : string) (v : value) : M value :=
  fun st => match x with
            | VRef l =>
                let o := obj_at (heap st) l in
                Ok v (set_heap (<[l := mkObject (code o) (<[k := v]> (props o))]> (heap st)) st)
            | _ => Throw TypeError st
            end.

(** A function expression: a fresh function object. *)
Definition new_function (c : closure) : M value :=
  fun st => Ok (VRef (length (heap st)))
               (set_heap (heap st ++ [mkObject (Some c) ∅]) st).

(** [a && b] *)
Definition js_and (a b : M value) : M value :=
  do x <- a; if truthy x then b else ret x.

(** [a === b] and [a !== b] *)
Definition strict_eq (a b : value) : value := VBool (bool_decide (a = b)).
Definition strict_ne (a b : value) : value := VBool (bool_decide (a ≠ b)).

(** ** The detector and [isDefined] (l.125-136) *)

(** [typeof value != 'undefined'] *)
Definition isDefined (v : value) : M value :=
  do t <- js_typeof v; ret (strict_ne t (VStr "undefined")).

(** [typeof x === "object" && x !== null && typeof x.then === "function"] *)
Definition isPromise (x : value) : M value :=
  js_and (do t <- js_typeof x; ret (strict_eq t (VStr "object")))
    (js_and (ret (strict_ne x VNull))
       (do th <- get_prop x "then";
        do t <- js_typeof th;
        ret (strict_eq t (VStr "function")))).

(** ** Installation (l.139-213) *)

Definition get_duckPunchedAlready : M bool :=
  fun st => Ok (duckPunchedAlready st) st.
Definition assign_duckPunchedAlready (b : bool) : M value :=
  fun st => Ok (VBool b) (set_duckPunchedAlready b st).

(** [jasmine.Spec.prototype] *)
Definition spec_prototype (jasmine : value) : M value :=
  do Spec <- get_prop jasmine "Spec"; get_prop Spec "prototype".

Definition jasmineAsPromised (jasmine : value) : M value :=
  do punched <- get_duckPunchedAlready;
  if punched then ret VUndefined else
  do defined <- isDefined jasmine;
  if negb (truthy defined) then ret VUndefined else
  do _ <- assign_duckPunchedAlready true;
  do proto <- spec_prototype jasmine;
  do runs <- get_prop proto "runs";
  do proto <- spec_prototype jasmine;
  do waitsFor <- get_prop proto "waitsFor";
  do interceptor <- new_function (Interceptor runs waitsFor);
  do toString <- new_function (InterceptorToString runs);
  do _ <- set_prop interceptor "toString" toString;
  do proto <- spec_prototype jasmine;
  do _ <- set_prop proto "runs" interceptor;
  ret VUndefined.

(** ** Automatic discovery (l.55-105) *)

(** A module of Node's module tree: [id], [exports], [children]. *)
#[warnings="-register-all"]
Inductive nmodule :=
| NModule (id : string) (exports : value) (children : list nmodule).

(** [s.indexOf(t, from) !== -1], with [from] clamped at 0 *)
Definition indexOf_found (s t : string) (from : Z) : bool :=
  match String.index (Z.to_nat from) t s with Some _ => true | None => false end.

Fixpoint findNodeJSTarget (moduleToTest : nmodule) (suffix : string) : value :=
  match moduleToTest with
  | NModule id exports children =>
      if indexOf_found id suffix
           (Z.of_nat (String.length id) - Z.of_nat (String.length suffix))
         && truthy exports
      then exports
      else
        (fix loop (cs : list nmodule) : value :=
           match cs with
           | [] => VUndefined
           | c :: cs' =>
               let found := findNodeJSTarget c suffix in
               if truthy found then found else loop cs'
           end) children
  end.

(** What the entry point reads from its environment: whether [process] is
    Node's own, [require.main] (absent when there is no entry script), the
    separator of [path.join], and the global binding [jasmine], [None] when
    no such binding exists. *)
Record environment := mkEnvironment {
  real_node : bool;
  require_main : option nmodule;
  path_sep : string;
  jasmine_global : option value
}.

Definition path_join (sep : string) (parts : list string) : string :=
  String.concat sep parts.

Definition no_module_message : string :=
  "Attempted to automatically plug in to Jasmine, but could not detect a running Jasmine module.".
Definition no_environment_message : string :=
  "Attempted to automatically plug in to Jasmine, but could not detect the environment. Plug in manually by passing the running Jasmine module.".

(** Reading the identifier [jasmine]: a ReferenceError without a binding. *)
Definition read_jasmine (env : environment) : M value :=
  match jasmine_global env with
  | Some j => ret j
  | None => throw (ReferenceError "jasmine")
  end.

(** [module.exports = function (target) { ... }] (l.80-105) *)
Definition module_exports (env : environment) (target : value) : M value :=
  if negb (truthy target) then
    if real_node env then
      let suffix := path_join (path_sep env) ["jasmine"; "lib"; "jasmine.js"] in
      match require_main env with
      | None => throw TypeError
      | Some main =>
          let target := findNodeJSTarget main suffix in
          do defined <- isDefined target;
          if negb (truthy defined) then throw (Error no_module_message)
          else jasmineAsPromised target
      end
    else
      do jasmine <- read_jasmine env;
      do defined <- isDefined jasmine;
      if truthy defined then jasmineAsPromised jasmine
      else throw (Error no_environment_message)
  else jasmineAsPromised target.

(** ** Functions of the test author *)

(** A user function may write properties and create objects; it returns or
    throws.  It cannot reach the variables the program's closures capture. *)
Inductive heap_op :=
| SetProp (l : nat) (k : string) (v : value)
| NewObject (o : object).

Inductive completion :=
| Return (v : value)
| Raise (v : value).

Definition user_semantics : Type :=
  nat -> value -> list value -> list object -> list heap_op * completion.

Definition apply_op (h : list object) (op : heap_op) : list object :=
  match op with
  | SetProp l k v =>
      let o := obj_at h l in <[l := mkObject (code o) (<[k := v]> (props o))]> h
  | NewObject o => h ++ [o]
  end.

Definition apply_ops (ops : list heap_op) (h : list object) : list object :=
  foldl apply_op h ops.

(** [f]'s code, when [f] is a function. *)
Definition code_of (h : list object) (f : value) : option closure :=
  match f with VRef l => code (obj_at h l) | _ => None end.

(** The i-th actual argument, [undefined] when absent. *)
Definition arg (i : nat) (args : list value) : value :=
  default VUndefined (args !! i).

(** ** The host's primitives *)

Definition enqueue (b : block) : M value :=
  fun st => Ok VUndefined (set_queue (queue st ++ [b]) st).

(** Modelled from the spec: the host's step-running primitive
    [runStep(body)] (section 6), invoked with the spec as receiver. *)
Definition host_runs (this func : value) : M value :=
  do _ <- enqueue (Block this func); ret this.

(** Modelled from the spec: the host's poll-until-true primitive
    [waitUntil(condition, timeoutMs?)] (section 6). *)
Definition host_waitsFor (this latchFunction timeout : value) : M value :=
  do _ <- enqueue (WaitsForBlock this latchFunction timeout 0); ret this.

(** Modelled from the spec: [then] of a deferred computation registers a
    success callback and a failure callback (section 3). *)
Definition promise_then (p : nat) (onFulfilled onRejected : value) : M value :=
  fun st =>
    match promises st !! p with
    | Some pr =>
        Ok VUndefined
           (set_promises
              (<[p := mkPromise (settled pr) (reactions pr ++ [(onFulfilled, onRejected)])]>
                 (promises st)) st)
    | None => Ok VUndefined st
    end.

(** ** The interceptor (l.155-198) *)

(** [var result = false] *)
Definition new_result : M nat :=
  fun st => Ok (length (results st)) (set_results (results st ++ [false]) st).

(** [function () { return result = true; }] (l.158-162) *)
Definition onReleaseWait (result : nat) : M value :=
  fun st => Ok (VBool true) (set_results (<[result := true]> (results st)) st).

(** [function () { return result; }] (l.185-189) *)
Definition latchCheck (result : nat) : M value :=
  fun st => Ok (VBool (default false (results st !! result))) st.

Section Calls.

(** How JavaScript calls [f] with receiver [this] and arguments [args]. *)
Variable call : value -> value -> list value -> M value.

(** The function handed to [runs] (l.167-180).  [onReleaseWait] is a local
    of the same activation: the call [onReleaseWait()] runs its body. *)
Definition adapter (runFn : value) (result : nat) (onReleaseWaitFn : value) : M value :=
  do retVal <- call runFn VUndefined [];
  do deferred <- isPromise retVal;
  if truthy deferred then
    do then_ <- get_prop retVal "then";
    do _ <- call then_ retVal [onReleaseWaitFn; onReleaseWaitFn];
    ret VUndefined
  else
    do _ <- onReleaseWait result;
    ret VUndefined.

Definition interceptor (runs waitsFor this runFn expectFn timeOut : value) : M value :=
  do result <- new_result;
  do onReleaseWaitFn <- new_function (OnReleaseWait result);
  do step <- new_function (Adapter runFn result onReleaseWaitFn);
  do _ <- call runs this [step];
  do latch <- new_function (LatchCheck result);
  do _ <- call waitsFor this [latch; timeOut];
  do defined <- isDefined expectFn;
  if truthy defined then
    do _ <- call runs this [expectFn];
    ret VUndefined
  else ret VUndefined.

(** [function () { return runs.toString(); }] (l.203-206) *)
Definition interceptor_toString (runs : value) : M value :=
  do m <- get_prop runs "toString"; call m runs [].

End Calls.

Section Semantics.

Variable user : user_semantics.

Definition user_call (id : nat) (this : value) (args : list value) : M value :=
  fun st =>
    let '(ops, c) := user id this args (heap st) in
    let st' := set_calls (calls st ++ [(id, this, args)])
                 (set_heap (apply_ops ops (heap st)) st) in
    match c with
    | Return v => Ok v st'
    | Raise e => Throw (Thrown e) st'
    end.

(** A call with [stack] frames left: a RangeError when none is, a
    TypeError when [f] is not a function. *)
Fixpoint call (stack : nat) (f this : value) (args : list value) : M value :=
  match stack with
  | 0 => throw RangeError
  | S stack' =>
      fun st =>
        match code_of (heap st) f with
        | None => Throw TypeError st
        | Some HostRuns => host_runs this (arg 0 args) st
        | Some HostWaitsFor => host_waitsFor this (arg 0 args) (arg 1 args) st
        | Some (Interceptor runs waitsFor) =>
            interceptor (call stack') runs waitsFor this
              (arg 0 args) (arg 1 args) (arg 2 args) st
        | Some (InterceptorToString runs) => interceptor_toString (call stack') runs st
        | Some (OnReleaseWait r) => onReleaseWait r st
        | Some (Adapter runFn r onReleaseWaitFn) =>
            adapter (call stack') runFn r onReleaseWaitFn st
        | Some (LatchCheck r) => latchCheck r st
        | Some (PromiseThen p) => promise_then p (arg 0 args) (arg 1 args) st
        | Some (UserFn id) => user_call id this args st
        end
  end.

(** ** The runner loop and the world around it *)

(** Modelled from the spec: the host's default timeout and its polling
    cadence (sections 4.2 and 5), in milliseconds.  No property below
    depends on the two numbers. *)
Definition defaultTimeoutInterval : Z := 5000.
Definition TIMEOUT_INCREMENT : Z := 10.

(** Modelled from the spec: [timeoutMs] when given, the host's default
    when absent (section 4.2). *)
Definition effective_timeout (timeout : value) : Z :=
  match timeout with VNum n => n | _ => defaultTimeoutInterval end.

Definition drop_head (st : state) : state := set_queue (tail (queue st)) st.
Definition fail (f : failure) (st : state) : state :=
  set_failures (failures st ++ [f]) st.

(** Modelled from the spec: one turn of the host's runner loop (section
    5).  A step block calls its body with the spec as receiver and no
    argument, and the host records a throw as a failure of the step.  A
    poll block checks its condition once: true completes it, a passed
    timeout fails it and abandons the rest of the queue, otherwise it is
    checked again one increment later. *)
Definition tick (stack : nat) (st : state) : state :=
  match queue st with
  | [] => st
  | Block spec func :: _ =>
      match call stack func spec [] st with
      | Ok _ st' => drop_head st'
      | Throw e st' => drop_head (fail (StepThrew e) st')
      end
  | WaitsForBlock spec latchFunction timeout waited :: _ =>
      match call stack latchFunction spec [] st with
      | Throw e st' => drop_head (fail (StepThrew e) st')
      | Ok v st' =>
          if truthy v then drop_head st'
          else if (effective_timeout timeout <=? waited)%Z
          then set_queue [] (fail TimedOut st')
          else set_queue
                 (WaitsForBlock spec latchFunction timeout (waited + TIMEOUT_INCREMENT)
                    :: tail (queue st')) st'
      end
  end.

(** Modelled from the spec: a pending deferred computation settles once
    (glossary, Settlement). *)
Definition settle (p : nat) (s : settlement) (st : state) : state :=
  match promises st !! p with
  | Some (mkPromise None rs) =>
      set_promises (<[p := mkPromise (Some s) rs]> (promises st)) st
  | _ => st
  end.

(** Modelled from the spec: a settled deferred computation runs the
    oldest registered pair, the success callback with the value or the
    failure callback with the reason; what the callback throws is not the
    runner's concern. *)
Definition deliver (stack : nat) (p : nat) (st : state) : state :=
  match promises st !! p with
  | Some (mkPromise (Some s) ((onFulfilled, onRejected) :: rs)) =>
      let st1 := set_promises (<[p := mkPromise (Some s) rs]> (promises st)) st in
      match s with
      | Fulfilled v => final (call stack onFulfilled VUndefined [v] st1)
      | Rejected e => final (call stack onRejected VUndefined [e] st1)
      end
  | _ => st
  end.

Inductive event :=
| Invoke (f this : value) (args : list value)   (* test code calls a function *)
| Activate (jasmine : value)                    (* jasmineAsPromised(jasmine) *)
| Tick                                          (* the runner takes a turn *)
| Settle (p : nat) (s : settlement)
| Deliver (p : nat).

Definition exec (stack : nat) (ev : event) (st : state) : state :=
  match ev with
  | Invoke f this args => final (call stack f this args st)
  | Activate jasmine => final (jasmineAsPromised jasmine st)
  | Tick => tick stack st
  | Settle p s => settle p s st
  | Deliver p => deliver stack p st
  end.

Definition run (stack : nat) (evs : list event) (st : state) : state :=
  foldl (fun s ev => exec stack ev s) st evs.

End Semantics.

(** ** A small world to run the program in *)

Module Sample.

Definition jasmine : value := VRef 0.
Definition Spec : value := VRef 1.
Definition prototype : value := VRef 2.
Definition runs0 : value := VRef 3.
Definition waitsFor0 : value := VRef 4.
Definition spec : value := VRef 5.
Definition deferred : value := VRef 6.
Definition body : value := VRef 8.
Definition followUp : value := VRef 9.
Definition syncBody : value := VRef 10.
Definition emptyObject : value := VRef 11.
Definition badThen : value := VRef 12.

(** [{ then: function (a, b) {} }] is [deferred]; [{}] is [emptyObject];
    [{ then: "not a function" }] is [badThen]. *)
Definition heap0 : list object :=
  [ mkObject None {[ "Spec" := Spec ]};
    mkObject (Some (UserFn 9)) {[ "prototype" := prototype ]};
    mkObject None (<[ "runs" := runs0 ]> {[ "waitsFor" := waitsFor0 ]});
    mkObject (Some HostRuns) ∅;
    mkObject (Some HostWaitsFor) ∅;
    mkObject None ∅;
    mkObject None {[ "then" := VRef 7 ]};
    mkObject (Some (PromiseThen 0)) ∅;
    mkObject (Some (UserFn 0)) ∅;
    mkObject (Some (UserFn 1)) ∅;
    mkObject (Some (UserFn 2)) ∅;
    mkObject None ∅;
    mkObject None {[ "then" := VStr "not a function" ]} ].

(** [body] returns the deferred computation, [followUp] and [syncBody]
    return undefined. *)
Definition user0 : user_semantics :=
  fun id _ _ _ =>
    match id with
    | 0 => ([], Return deferred)
    | _ => ([], Return VUndefined)
    end.

Definition st0 : state :=
  mkState false [] heap0 [mkPromise None []] [] [] [].

(** The state after [jasmineAsPromised(jasmine)], and the interceptor it
    leaves in [jasmine.Spec.prototype.runs]. *)
Definition st1 : state := final (jasmineAsPromised jasmine st0).
Definition installed : value := VRef 13.

(** [runs(body, followUp)], the step, the settlement with 5, its
    delivery, the poll, the follow-up. *)
Definition fulfilled_with_5 : list event :=
  [ Invoke installed spec [body; followUp];
    Tick; Settle 0 (Fulfilled (VNum 5)); Deliver 0; Tick; Tick ].

(** The same with a rejection. *)
Definition rejected_with_boom : list event :=
  [ Invoke installed spec [body; followUp];
    Tick; Settle 0 (Rejected (VStr "boom")); Deliver 0; Tick; Tick ].

(** [runs(syncBody)] and [runs(body, followUp)] just called: the three
    closures of the activation are at 15, 16 and 17. *)
Definition sync_scheduled : state :=
  run user0 10 [Invoke installed spec [syncBody]] st1.
Definition async_scheduled : state :=
  run user0 10 [Invoke installed spec [body; followUp]] st1.
Definition onReleaseWaitFn : value := VRef 15.
Definition step : value := VRef 16.
Definition latch : value := VRef 17.

End Sample.

(** ** Reading the host's extensibility point *)

(** What [x.k] evaluates to when it does not throw. *)
Definition prop_of (h : list object) (x : value) (k : string) : value :=
  match x with
  | VRef l => default VUndefined (props (obj_at h l) !! k)
  | _ => VUndefined
  end.

(** [jasmine.Spec.prototype] *)
Definition prototype_of (h : list object) (jasmine : value) : value :=
  prop_of h (prop_of h jasmine "Spec") "prototype".

(** Activation attempts in a row; what an attempt throws is the caller's. *)
Definition activate_all (handles : list value) (st : state) : state :=
  foldl (fun s jasmine => final (jasmineAsPromised jasmine s)) st handles.

(** ** Module trees without a Jasmine module *)

(** The module ends in [suffix] and has truthy [exports] (l.57). *)
Definition is_target (suffix : string) (m : nmodule) : bool :=
  match m with
  | NModule id exports _ =>
      indexOf_found id suffix
        (Z.of_nat (String.length id) - Z.of_nat (String.length suffix))
      && truthy exports
  end.

#[warnings="-register-all"]
Inductive no_jasmine_module (suffix : string) : nmodule -> Prop :=
| no_jasmine_here id exports children :
    is_target suffix (NModule id exports children) = false ->
    Forall (no_jasmine_module suffix) children ->
    no_jasmine_module suffix (NModule id exports children).

(** Environments of the entry point: Node without and with a Jasmine
    module below the entry script, and CommonJS emulations without a binding
    named [jasmine] and with one that holds undefined. *)
Definition node_without_jasmine : environment :=
  mkEnvironment true
    (Some (NModule "/work/spec/runner.js" (VRef 5)
             [NModule "/work/node_modules/q/q.js" (VRef 11) []]))
    "/" None.

Definition node_with_jasmine : environment :=
  mkEnvironment true
    (Some (NModule "/work/spec/runner.js" (VRef 5)
             [NModule "/work/node_modules/q/q.js" (VRef 11) [];
              NModule "/usr/lib/node_modules/jasmine-node/lib/jasmine-node/index.js" (VRef 11)
                [NModule "/usr/lib/node_modules/jasmine/lib/jasmine.js" (VRef 0) []]]))
    "/" None.

Definition emulation_without_jasmine : environment :=
  mkEnvironment false None "/" None.

Definition emulation_with_undefined_jasmine : environment :=
  mkEnvironment false None "/" (Some VUndefined).

(** ** The detector's contract, as the specification words it (section 4.1) *)

(** A non-null object-like value ([typeof] gives "object") ... *)
Definition object_like (h : list object) (x : value) : Prop :=
  typeof h x = "object".

(** ... with a property named [then] whose value is callable. *)
Definition has_callable_then (h : list object) (x : value) : Prop :=
  exists l t, x = VRef l /\ props (obj_at h l) !! "then" = Some t /\
              typeof h t = "function".

Definition is_deferred_shape (h : list object) (x : value) : Prop :=
  object_like h x /\ x <> VNull /\ has_callable_then h x.

(** The heap a first installation leaves: the interceptor (with its
    [toString]) and the [toString] function allocated at the end, and
    [jasmine.Spec.prototype.runs] pointing at the interceptor. *)
Definition installed_heap (h : list object) (p : nat) : list object :=
  let n := length h in
  let runs := prop_of h (VRef p) "runs" in
  let waitsFor := prop_of h (VRef p) "waitsFor" in
  let op := obj_at h p in
  <[p := mkObject (code op) (<["runs" := VRef n]> (props op))]>
    (<[n := mkObject (Some (Interceptor runs waitsFor)) (<["toString" := VRef (S n)]> ∅)]>
       (h ++ [mkObject (Some (Interceptor runs waitsFor)) ∅;
              mkObject (Some (InterceptorToString runs)) ∅])).

(** ** How states evolve *)

(** What every step of the program and of the world around it preserves:
    the installed flag once set, the [result] variables that exist and those
    that are true, and the code of the function objects. *)
Record evolves (st st' : state) : Prop := mkEvolves {
  evolves_flag : duckPunchedAlready st = true -> duckPunchedAlready st' = true;
  evolves_length : length (results st) <= length (results st');
  evolves_true : forall r, results st !! r = Some true -> results st' !! r = Some true;
  evolves_code : forall f c, code_of (heap st) f = Some c -> code_of (heap st') f = Some c
}.

(** What a call preserves besides: it records no failure, only appends to
    the queue, and leaves the installed flag alone. *)
Record grows (st st' : state) : Prop := mkGrows {
  grows_evolves : evolves st st';
  grows_flag : duckPunchedAlready st' = duckPunchedAlready st;
  grows_failures : failures st' = failures st;
  grows_queue : exists extra, queue st' = queue st ++ extra
}.

Definition preserves {A} (R : state -> state -> Prop) (m : M A) : Prop :=
  forall st, R st (final (m st)).

(** ** What one activation of the interceptor leaves behind *)

(** With the host's own primitives as [runs] and [waitsFor]: a fresh
    [result], false; the three closures of the activation; and in the queue
    the step, the poll with [timeOut], and the follow-up when there is one. *)
Definition scheduled (st : state) (this runFn expectFn timeOut : value) : state :=
  let r := length (results st) in
  let l := length (heap st) in
  mkState (duckPunchedAlready st)
    (results st ++ [false])
    (heap st ++ [mkObject (Some (OnReleaseWait r)) ∅;
                 mkObject (Some (Adapter runFn r (VRef l))) ∅;
                 mkObject (Some (LatchCheck r)) ∅])
    (promises st)
    (queue st ++ Block this (VRef (S l))
                 :: WaitsForBlock this (VRef (S (S l))) timeOut 0
                 :: (if bool_decide (expectFn <> VUndefined)
                     then [Block this expectFn] else []))
    (failures st) (calls st).

(** ** The module tree in the order the search visits it *)

(** [moduleToTest] first, then each child's subtree, left to right (l.57-68). *)
Fixpoint preorder (m : nmodule) : list nmodule :=
  match m with
  | NModule _ _ children => m :: flat_map preorder children
  end.

Definition exports_of (m : nmodule) : value :=
  match m with NModule _ exports _ => exports end.

Definition id_of (m : nmodule) : string :=
  match m with NModule id _ _ => id end.

(** The [exports] of the first visited module that passes the test of l.57. *)
Definition first_target (suffix : string) (m : nmodule) : value :=
  match List.find (is_target suffix) (preorder m) with
  | Some m' => exports_of m'
  | None => VUndefined
  end.

(** ** Loading the file (l.73-115) *)

(** What the top-level code reads: [typeof require], [typeof exports],
    [typeof module], [typeof define], [define.amd], and the environment of
    the entry point. *)
Record page := mkPage {
  typeof_require : string;
  typeof_exports : string;
  typeof_module : string;
  typeof_define : string;
  define_amd : value;
  page_env : environment
}.

(** Which branch ran: [module.exports] was assigned the entry point (l.80),
    [define] was called with the factory (l.109), or [jasmineAsPromised] was
    called on the global [jasmine] (l.114). *)
Inductive loaded :=
| Exported
| Registered
| PluggedIn.

(** [!x] *)
Definition js_not (x : value) : value := VBool (negb (truthy x)).

Definition load (pg : page) : M loaded :=
  do commonjs <-
    js_and (ret (strict_eq (VStr (typeof_require pg)) (VStr "function")))
      (js_and (ret (strict_eq (VStr (typeof_exports pg)) (VStr "object")))
         (ret (strict_eq (VStr (typeof_module pg)) (VStr "object"))));
  if truthy commonjs then ret Exported
  else
    do amd <-
      js_and (ret (strict_eq (VStr (typeof_define pg)) (VStr "function")))
        (js_and (ret (define_amd pg))
           (do jasmine <- read_jasmine (page_env pg);
            do defined <- isDefined jasmine;
            ret (js_not defined)));
    if truthy amd then ret Registered
    else
      do jasmine <- read_jasmine (page_env pg);
      do _ <- jasmineAsPromised jasmine;
      ret PluggedIn.

(** The three tests of l.73 and the first two of l.107. *)
Definition is_commonjs (pg : page) : bool :=
  String.eqb (typeof_require pg) "function"
  && String.eqb (typeof_exports pg) "object"
  && String.eqb (typeof_module pg) "object".

Definition has_amd_loader (pg : page) : bool :=
  String.eqb (typeof_define pg) "function" && truthy (define_amd pg).

(** [jasmineAsPromised(jasmine)] as the last statement of the file. *)
Definition plug_in (jasmine : value) (st : state) : outcome loaded :=
  match jasmineAsPromised jasmine st with
  | Ok _ st' => Ok PluggedIn st'
  | Throw e st' => Throw e st'
  end.

(** Booleans, numbers and strings. *)
Definition is_primitive (v : value) : Prop :=
  match v with
  | VBool _ | VNum _ | VStr _ => True
  | _ => False
  end.

(** ** Waiting for a delivery *)

(** Events that deliver nothing: turns of the runner and settlements. *)
Definition quiet (ev : event) : bool :=
  match ev with
  | Tick | Settle _ _ => true
  | _ => false
  end.

(** The latch [r] is false, and the runner is at a poll block on it or has
    nothing left to run. *)
Definition waiting (st : state) (r : nat) : Prop :=
  results st !! r = Some false /\
  (queue st = [] \/
   exists spec latch timeout waited rest,
     queue st = WaitsForBlock spec latch timeout waited :: rest /\
     code_of (heap st) latch = Some (LatchCheck r)).

(** A user function that returns whatever it is called with and on. *)
Definition always_returns (user : user_semantics) (id : nat) : Prop :=
  forall this args h, exists ops v, user id this args h = (ops, Return v).


(** ** Accessor properties *)

(** The objects of the heap hold data properties.  Accessor properties are
    kept apart: [getters l k] is the getter of property [k] of object [l]
    when that property is an accessor, and it takes precedence over a data
    property of the same name. *)
Definition accessor_table : Type := nat -> string -> option value.

Section Accessors.

Variable call : value -> value -> list value -> M value.
Variable getters : accessor_table.

(** [x.k] as the language defines it: an accessor runs its getter with [x]
    as receiver, anything else is the read of [get_prop]. *)
Definition get_property (x : value) (k : string) : M value :=
  match x with
  | VRef l =>
      match getters l k with
      | Some getter => call getter x []
      | None => get_prop x k
      end
  | _ => get_prop x k
  end.

(** The detector of l.125-128 over objects that may have accessors. *)
Definition isPromise_get (x : value) : M value :=
  js_and (do t <- js_typeof x; ret (strict_eq t (VStr "object")))
    (js_and (ret (strict_ne x VNull))
       (do th <- get_property x "then";
        do t <- js_typeof th;
        ret (strict_eq t (VStr "function")))).

End Accessors.

(** No accessor anywhere. *)
Definition no_getters : accessor_table := fun _ _ => None.

(** ** A second world: user-written thenables, hosts and failing bodies *)

Module Sample2.

(** Beyond [Sample.heap0]: a thenable with a user-written [then] (13, 14),
    a body that returns it (15), a body that throws (16), a host [runs] with
    a [toString] (17, 18), user-written [runs] and [waitsFor] (19, 20), a
    framework object around the host [runs] of 17 (21, 22, 23), and a
    function that has a [then] with a body that returns it (24, 25). *)
Definition thenable : value := VRef 13.
Definition thenableBody : value := VRef 15.
Definition throwingBody : value := VRef 16.
Definition printableRuns : value := VRef 17.
Definition userRuns : value := VRef 19.
Definition userWaitsFor : value := VRef 20.
Definition jasmine : value := VRef 23.
Definition callableThenable : value := VRef 24.
Definition callableThenableBody : value := VRef 25.

Definition heap0 : list object :=
  Sample.heap0 ++
  [ mkObject None {[ "then" := VRef 14 ]};
    mkObject (Some (UserFn 3)) ∅;
    mkObject (Some (UserFn 4)) ∅;
    mkObject (Some (UserFn 5)) ∅;
    mkObject (Some HostRuns) {[ "toString" := VRef 18 ]};
    mkObject (Some (UserFn 6)) ∅;
    mkObject (Some (UserFn 7)) ∅;
    mkObject (Some (UserFn 8)) ∅;
    mkObject None (<[ "runs" := printableRuns ]> {[ "waitsFor" := Sample.waitsFor0 ]});
    mkObject (Some (UserFn 9)) {[ "prototype" := VRef 21 ]};
    mkObject None {[ "Spec" := VRef 22 ]};
    mkObject (Some (UserFn 10)) {[ "then" := VRef 14 ]};
    mkObject (Some (UserFn 11)) ∅ ].

Definition user0 : user_semantics :=
  fun id _ _ _ =>
    match id with
    | 0 => ([], Return Sample.deferred)
    | 4 => ([], Return thenable)
    | 11 => ([], Return callableThenable)
    | 5 => ([], Raise (VStr "boom"))
    | 6 => ([], Return (VStr "function (func) { ... }"))
    | 7 => ([NewObject empty_object], Return VUndefined)
    | _ => ([], Return VUndefined)
    end.

Definition st0 : state :=
  mkState false [] heap0 [mkPromise None []] [] [] [].

(** After installation on [Sample.jasmine]: the interceptor is at 26. *)
Definition st1 : state := final (jasmineAsPromised Sample.jasmine st0).
Definition installed : value := VRef 26.

(** [runs(throwingBody, followUp)] and [runs(body, followUp)] just called:
    the closures of the activation are at 28, 29 and 30. *)
Definition throwing_scheduled : state :=
  run user0 10 [Invoke installed Sample.spec [throwingBody; Sample.followUp]] st1.
Definition deferred_scheduled : state :=
  run user0 10 [Invoke installed Sample.spec [Sample.body; Sample.followUp]] st1.
Definition onReleaseWaitFn : value := VRef 28.
Definition step : value := VRef 29.
Definition latch : value := VRef 30.

(** [Object.defineProperty(o, "then", { get: f })] on two plain objects:
    on [Sample.emptyObject] with the getter that throws "boom", on
    [Sample.spec] with a getter that creates an object and returns
    undefined. *)
Definition getters : accessor_table :=
  fun l k =>
    if Nat.eqb l 11 && String.eqb k "then" then Some throwingBody
    else if Nat.eqb l 5 && String.eqb k "then" then Some userRuns
    else None.

End Sample2.

(** ** A third world: handles that are not a framework *)

Module Sample3.

(** [{ Spec: {} }], [{ Spec: { prototype: 7 } }], and a framework whose
    prototype has neither [runs] nor [waitsFor]. *)
Definition noPrototype : value := VRef 0.
Definition primitivePrototype : value := VRef 2.
Definition bareHost : value := VRef 4.
Definition spec : value := VRef 7.

Definition heap0 : list object :=
  [ mkObject None {[ "Spec" := VRef 1 ]};
    mkObject None ∅;
    mkObject None {[ "Spec" := VRef 3 ]};
    mkObject None {[ "prototype" := VNum 7 ]};
    mkObject None {[ "Spec" := VRef 5 ]};
    mkObject (Some (UserFn 9)) {[ "prototype" := VRef 6 ]};
    mkObject None ∅;
    mkObject None ∅ ].

Definition st0 : state := mkState false [] heap0 [] [] [] [].

End Sample3.

(** ** Pages that load the file *)

(** A page with a [script] tag and no module system, and a page with an AMD
    loader ([define.amd] is an object), around a given environment. *)
Definition script_page (env : environment) : page :=
  mkPage "undefined" "undefined" "undefined" "undefined" VUndefined env.

Definition amd_page (env : environment) : page :=
  mkPage "undefined" "undefined" "undefined" "function" (VRef 11) env.

Definition node_page (env : environment) : page :=
  mkPage "function" "object" "object" "undefined" VUndefined env.

(** An environment outside Node whose global [jasmine] is the framework. *)
Definition page_with_jasmine : environment :=
  mkEnvironment false None "/" (Some Sample.jasmine).

(** * Properties *)

(** ** The detector *)

Lemma typeof_function h t :
  typeof h t = "function" <-> exists c, code_of h t = Some c.
Proof.
  destruct t as [| | b | n | s | l]; simpl; try (split; [discriminate | intros [c Hc]; discriminate]).
  destruct (code (obj_at h l)) as [c|]; split; intros H; eauto; try discriminate.
  destruct H as [c Hc]. discriminate.
Qed.

Lemma isPromise_ref (l : nat) (st : state) :
  isPromise (VRef l) st =
  Ok (VBool (match code (obj_at (heap st) l) with
             | Some _ => false
             | None =>
                 bool_decide
                   (typeof (heap st) (default VUndefined (props (obj_at (heap st) l) !! "then"))
                    = "function")
             end)) st.
Proof.
  unfold isPromise, js_and, bind, js_typeof, ret, strict_eq, strict_ne, get_prop; simpl.
  destruct (code (obj_at (heap st) l)) as [c|]; simpl; [reflexivity|].
  f_equal. f_equal.
  apply bool_decide_ext. split; [intros [=] | intros ->]; done.
Qed.

Lemma isPromise_not_ref (x : value) (st : state) :
  (forall l, x <> VRef l) -> isPromise x st = Ok (VBool false) st.
Proof.
  intros Hx. destruct x; try reflexivity. exfalso. by eapply Hx.
Qed.

(** A function object is not object-like, whatever its properties. *)
Lemma isPromise_function_object (l : nat) (c : closure) (st : state) :
  code (obj_at (heap st) l) = Some c -> isPromise (VRef l) st = Ok (VBool false) st.
Proof. intros H. rewrite isPromise_ref. by rewrite H. Qed.

Lemma isPromise_boolean (x : value) (st : state) :
  exists b : bool, isPromise x st = Ok (VBool b) st.
Proof.
  destruct x as [| | b | n | s | l];
    try (exists false; reflexivity).
  rewrite isPromise_ref. eauto.
Qed.

(** Without an accessor to run, the detector over objects with accessors is
    the detector over data properties. *)
Lemma isPromise_get_data (callf : value -> value -> list value -> M value)
    (getters : accessor_table) (x : value) (st : state) :
  (forall l, x = VRef l -> code (obj_at (heap st) l) = None -> getters l "then" = None) ->
  isPromise_get callf getters x st = isPromise x st.
Proof.
  intros H. destruct x as [| | b | n | s | l]; try reflexivity.
  unfold isPromise_get, isPromise, js_and, bind, js_typeof, ret, strict_eq. simpl.
  destruct (code (obj_at (heap st) l)) as [c|] eqn:Hc; simpl; [reflexivity|].
  by rewrite (H l eq_refl Hc).
Qed.

Lemma isPromise_get_no_getters (callf : value -> value -> list value -> M value)
    (x : value) (st : state) :
  isPromise_get callf no_getters x st = isPromise x st.
Proof. by apply isPromise_get_data. Qed.

(** C8 (amended): the detector is total and pure on every value that is not
    an object with an accessor [then]: on null, undefined, numbers, strings,
    booleans, functions, and objects whose [then] is absent or a data
    property, it returns a boolean, throws nothing, and leaves the state as
    it was. *)
Theorem isPromise_total_pure_without_accessor
    (callf : value -> value -> list value -> M value)
    (getters : accessor_table) (x : value) (st : state) :
  (forall l, x = VRef l -> code (obj_at (heap st) l) = None -> getters l "then" = None) ->
  (exists b : bool, isPromise_get callf getters x st = Ok (VBool b) st) /\
  final (isPromise_get callf getters x st) = st.
Proof.
  intros H. rewrite (isPromise_get_data callf getters x st H).
  destruct (isPromise_boolean x st) as [b Hb].
  split; [eauto | by rewrite Hb].
Qed.

Lemma isPromise_total_pure_without_accessor_witness :
  ((exists b : bool,
       isPromise_get (call Sample2.user0 1) Sample2.getters Sample.deferred Sample2.st0
       = Ok (VBool b) Sample2.st0) /\
   final (isPromise_get (call Sample2.user0 1) Sample2.getters Sample.deferred Sample2.st0)
   = Sample2.st0) /\
  ((exists b : bool,
       isPromise_get (call Sample2.user0 1) Sample2.getters VNull Sample2.st0
       = Ok (VBool b) Sample2.st0) /\
   final (isPromise_get (call Sample2.user0 1) Sample2.getters VNull Sample2.st0)
   = Sample2.st0).
Proof.
  split.
  - apply (isPromise_total_pure_without_accessor (call Sample2.user0 1) Sample2.getters
             Sample.deferred Sample2.st0).
    intros l [= <-] _. reflexivity.
  - apply (isPromise_total_pure_without_accessor (call Sample2.user0 1) Sample2.getters
             VNull Sample2.st0).
    intros l [=].
Defined.

(** C8 as it was stated fails on an object whose [then] is an accessor: the
    read of l.127 runs the getter.  With a getter that throws the detector
    throws, and with a getter that creates an object it changes the heap. *)
Lemma isPromise_accessor_counterexample :
  ~ (exists b : bool,
        isPromise_get (call Sample2.user0 1) Sample2.getters Sample.emptyObject Sample2.st0
        = Ok (VBool b) Sample2.st0) /\
  (exists st',
      isPromise_get (call Sample2.user0 1) Sample2.getters Sample.emptyObject Sample2.st0
      = Throw (Thrown (VStr "boom")) st') /\
  final (isPromise_get (call Sample2.user0 1) Sample2.getters Sample.spec Sample2.st0)
  <> Sample2.st0.
Proof.
  split; [|split].
  - intros [b H]. vm_compute in H. discriminate.
  - eexists. vm_compute. reflexivity.
  - intros H. apply (f_equal (fun s => length (heap s))) in H.
    vm_compute in H. discriminate.
Qed.

Lemma isPromise_true_iff (x : value) (st : state) :
  isPromise x st = Ok (VBool true) st <-> is_deferred_shape (heap st) x.
Proof.
  split.
  - destruct x as [| | b | n | s | l]; try discriminate.
    rewrite isPromise_ref. intros [= H].
    destruct (code (obj_at (heap st) l)) as [c|] eqn:Hc; [discriminate|].
    apply bool_decide_eq_true in H.
    destruct (props (obj_at (heap st) l) !! "then") as [t|] eqn:Ht; [|discriminate].
    repeat split.
    + unfold object_like. simpl. by rewrite Hc.
    + discriminate.
    + exists l, t. auto.
  - intros (Hobj & Hnull & l & t & -> & Ht & Hfun).
    rewrite isPromise_ref. unfold object_like in Hobj. simpl in Hobj.
    destruct (code (obj_at (heap st) l)); [discriminate|].
    rewrite Ht. simpl. by rewrite bool_decide_eq_true_2.
Qed.

(** C3: the detector returns true exactly on the non-null object-like values
    with a callable [then], and false on all others; true on
    [{ then: function (a, b) {} }], false on null, undefined, 42, "string",
    [{}] and [{ then: "not a function" }]. *)
Theorem isPromise_correct :
  (forall (x : value) (st : state),
      (isPromise x st = Ok (VBool true) st <-> is_deferred_shape (heap st) x) /\
      (isPromise x st = Ok (VBool false) st <-> ~ is_deferred_shape (heap st) x)) /\
  isPromise Sample.deferred Sample.st0 = Ok (VBool true) Sample.st0 /\
  isPromise VNull Sample.st0 = Ok (VBool false) Sample.st0 /\
  isPromise VUndefined Sample.st0 = Ok (VBool false) Sample.st0 /\
  isPromise (VNum 42) Sample.st0 = Ok (VBool false) Sample.st0 /\
  isPromise (VStr "string") Sample.st0 = Ok (VBool false) Sample.st0 /\
  isPromise Sample.emptyObject Sample.st0 = Ok (VBool false) Sample.st0 /\
  isPromise Sample.badThen Sample.st0 = Ok (VBool false) Sample.st0.
Proof.
  split; [|repeat split; reflexivity].
  intros x st. split; [apply isPromise_true_iff|].
  rewrite <- isPromise_true_iff.
  destruct (isPromise_boolean x st) as [[|] ->]; split; intros H;
    try discriminate; try done.
Qed.

(** ** Installation *)

Lemma isDefined_eval (v : value) (st : state) :
  isDefined v st = Ok (VBool (bool_decide (v <> VUndefined))) st.
Proof.
  unfold isDefined, bind, js_typeof, ret, strict_ne. f_equal. f_equal.
  apply bool_decide_ext.
  destruct v as [| | b | n | s | l]; simpl; try (split; intros; discriminate).
  - split; intros H; by destruct H.
  - destruct (code (obj_at (heap st) l)); split; intros; discriminate.
Qed.

Lemma jasmineAsPromised_punched (jasmine : value) (st : state) :
  duckPunchedAlready st = true -> jasmineAsPromised jasmine st = Ok VUndefined st.
Proof.
  intros H. unfold jasmineAsPromised, bind, get_duckPunchedAlready. by rewrite H.
Qed.

Lemma jasmineAsPromised_undefined (st : state) :
  jasmineAsPromised VUndefined st = Ok VUndefined st.
Proof.
  unfold jasmineAsPromised, bind, get_duckPunchedAlready.
  destruct (duckPunchedAlready st); reflexivity.
Qed.

Lemma activate_all_punched (handles : list value) (st : state) :
  duckPunchedAlready st = true -> activate_all handles st = st.
Proof.
  intros H. induction handles as [|j js IH]; [reflexivity|].
  unfold activate_all in *. simpl. by rewrite jasmineAsPromised_punched.
Qed.

Lemma get_prop_eval (x : value) (k : string) (st : state) :
  x <> VUndefined -> x <> VNull -> get_prop x k st = Ok (prop_of (heap st) x k) st.
Proof. destruct x; intros; try done. Qed.

Lemma obj_at_app (h ext : list object) (l : nat) :
  l < length h -> obj_at (h ++ ext) l = obj_at h l.
Proof. intros H. unfold obj_at. by rewrite lookup_app_l. Qed.

Lemma obj_at_insert (h : list object) (l l' : nat) (o : object) :
  obj_at (<[l := o]> h) l' =
  if decide (l = l' /\ l < length h) then o else obj_at h l'.
Proof.
  unfold obj_at. case_decide as Hd.
  - destruct Hd as [-> Hl]. by rewrite list_lookup_insert_eq.
  - destruct (decide (l = l')) as [->|Hne].
    + rewrite list_insert_ge; [done|]. lia.
    + by rewrite list_lookup_insert_ne.
Qed.

Lemma obj_at_app_here (h ext : list object) (o : object) :
  obj_at (h ++ o :: ext) (length h) = o.
Proof.
  unfold obj_at. rewrite lookup_app_r by lia. by rewrite Nat.sub_diag.
Qed.

Lemma obj_at_insert_ne (h : list object) (l l' : nat) (o : object) :
  l <> l' -> obj_at (<[l := o]> h) l' = obj_at h l'.
Proof. intros H. rewrite obj_at_insert. case_decide as Hd; [|done]. by destruct Hd. Qed.

Lemma obj_at_valid (h : list object) (l : nat) (k : string) (v : value) :
  props (obj_at h l) !! k = Some v -> l < length h.
Proof.
  unfold obj_at. destruct (h !! l) eqn:E; simpl.
  - intros _. by eapply lookup_lt_Some.
  - by rewrite lookup_empty.
Qed.

Lemma prop_of_ref_valid (h : list object) (x : value) (k : string) (l : nat) :
  prop_of h x k = VRef l -> exists j, x = VRef j /\ j < length h.
Proof.
  destruct x as [| | b | n | s | j]; try discriminate. simpl.
  destruct (props (obj_at h j) !! k) eqn:E; [|discriminate].
  intros _. exists j. split; [done|]. by eapply obj_at_valid.
Qed.

Lemma bind_ok {A B} (m : M A) (k : A -> M B) (st st' : state) (a : A) :
  m st = Ok a st' -> bind m k st = k a st'.
Proof. intros H. unfold bind. by rewrite H. Qed.

Lemma bind_throw {A B} (m : M A) (k : A -> M B) (st st' : state) (e : exn) :
  m st = Throw e st' -> bind m k st = Throw e st'.
Proof. intros H. unfold bind. by rewrite H. Qed.

Lemma spec_prototype_eval (jasmine : value) (st : state) (p : nat) :
  prototype_of (heap st) jasmine = VRef p ->
  spec_prototype jasmine st = Ok (VRef p) st.
Proof.
  intros H. unfold prototype_of in H.
  destruct (prop_of_ref_valid _ _ _ _ H) as (s & Hs & _).
  destruct (prop_of_ref_valid _ _ _ _ Hs) as (j & -> & _).
  unfold spec_prototype.
  erewrite bind_ok by (apply get_prop_eval; discriminate).
  rewrite Hs in *. rewrite get_prop_eval by discriminate. by rewrite H.
Qed.

(** Property reads through references that were valid before are not
    affected by allocation, nor by a write to another property. *)
Lemma prop_of_app (h ext : list object) (x : value) (k : string) (l : nat) :
  prop_of h x k = VRef l -> prop_of (h ++ ext) x k = VRef l.
Proof.
  intros H. destruct (prop_of_ref_valid _ _ _ _ H) as (j & -> & Hj).
  simpl in *. by rewrite obj_at_app.
Qed.

Lemma prop_of_insert_other (h : list object) (l : nat) (k k' : string) (v : value) (c : option closure) (x : value) :
  k <> k' ->
  prop_of (<[l := mkObject c (<[k := v]> (props (obj_at h l)))]> h) x k' = prop_of h x k'.
Proof.
  intros Hk. destruct x as [| | b | n | s | j]; try reflexivity. simpl.
  rewrite obj_at_insert. case_decide as Hd; [|done].
  destruct Hd as [-> _]. simpl. by rewrite lookup_insert_ne.
Qed.

Lemma prop_of_insert_fresh (h : list object) (l : nat) (o : object) (x : value) (k : string) :
  x <> VRef l -> prop_of (<[l := o]> h) x k = prop_of h x k.
Proof.
  intros Hx. destruct x as [| | b | n | s | j]; try reflexivity. simpl.
  rewrite obj_at_insert. case_decide as Hd; [|done].
  destruct Hd as [Hd _]. by subst.
Qed.

Lemma prototype_of_installing (h ext : list object) (jasmine : value) (p : nat) (o : object) :
  prototype_of h jasmine = VRef p ->
  prototype_of (<[length h := o]> (h ++ ext)) jasmine = VRef p.
Proof.
  unfold prototype_of. intros H.
  destruct (prop_of_ref_valid _ _ _ _ H) as (s & Hs & Hsv).
  destruct (prop_of_ref_valid _ _ _ _ Hs) as (j & -> & Hjv).
  rewrite (prop_of_insert_fresh _ _ _ (VRef j)) by (intros [=]; lia).
  rewrite (prop_of_app _ _ _ _ s) by done.
  rewrite prop_of_insert_fresh by (intros [=]; lia).
  rewrite Hs in H. by apply prop_of_app.
Qed.

Lemma jasmineAsPromised_installs (jasmine : value) (st : state) (p : nat) :
  duckPunchedAlready st = false ->
  prototype_of (heap st) jasmine = VRef p ->
  p < length (heap st) ->
  jasmineAsPromised jasmine st =
  Ok VUndefined (set_heap (installed_heap (heap st) p) (set_duckPunchedAlready true st)).
Proof.
  intros Hflag Hproto Hp.
  assert (Hdef : jasmine <> VUndefined).
  { intros ->. discriminate. }
  unfold jasmineAsPromised.
  erewrite bind_ok by reflexivity. rewrite Hflag.
  erewrite bind_ok by apply isDefined_eval.
  rewrite bool_decide_eq_true_2 by done. simpl.
  erewrite bind_ok by reflexivity.
  erewrite bind_ok by (by apply spec_prototype_eval).
  erewrite bind_ok by reflexivity.
  erewrite bind_ok by (by apply spec_prototype_eval).
  erewrite bind_ok by reflexivity.
  unfold new_function at 1. unfold bind at 1. cbn [heap set_heap set_duckPunchedAlready].
  unfold new_function at 1. unfold bind at 1. cbn [heap set_heap set_duckPunchedAlready].
  unfold set_prop at 1. unfold bind at 1. cbn [heap set_heap set_duckPunchedAlready].
  rewrite <- app_assoc.
  erewrite bind_ok.
  2:{ apply spec_prototype_eval. cbn [heap set_heap]. by apply prototype_of_installing. }
  unfold set_prop, bind, ret. cbn [heap set_heap set_duckPunchedAlready].
  change ([?a] ++ [?b]) with [a; b].
  rewrite obj_at_app_here, length_app, Nat.add_1_r.
  rewrite obj_at_insert_ne by lia. rewrite obj_at_app by done.
  reflexivity.
Qed.

Lemma prop_of_insert_props (h : list object) (l : nat) (k k' : string) (v : value)
    (c : option closure) (pm : gmap string value) (x : value) :
  k <> k' -> props (obj_at h l) = pm ->
  prop_of (<[l := mkObject c (<[k := v]> pm)]> h) x k' = prop_of h x k'.
Proof. intros Hk <-. by apply prop_of_insert_other. Qed.

Lemma installed_heap_spec (h : list object) (jasmine : value) (p : nat) :
  prototype_of h jasmine = VRef p -> p < length h ->
  prototype_of (installed_heap h p) jasmine = VRef p /\
  prop_of (installed_heap h p) (VRef p) "runs" = VRef (length h) /\
  code_of (installed_heap h p) (VRef (length h)) =
    Some (Interceptor (prop_of h (VRef p) "runs") (prop_of h (VRef p) "waitsFor")).
Proof.
  intros Hproto Hp. unfold installed_heap.
  set (I := mkObject (Some (Interceptor _ _)) (<["toString" := _]> ∅)).
  set (ext := [_; _]).
  assert (Hobj : obj_at (<[length h := I]> (h ++ ext)) p = obj_at h p).
  { rewrite obj_at_insert_ne by lia. by apply obj_at_app. }
  repeat split.
  - unfold prototype_of.
    rewrite !(prop_of_insert_props _ _ "runs") by (done || by rewrite Hobj).
    by apply prototype_of_installing.
  - simpl. rewrite obj_at_insert, decide_True.
    + simpl. by rewrite lookup_insert_eq.
    + split; [done|]. rewrite length_insert, length_app. lia.
  - simpl. rewrite obj_at_insert_ne by lia.
    rewrite obj_at_insert, decide_True; [done|].
    split; [done|]. rewrite length_app. simpl. lia.
Qed.

(** C4: installation is idempotent.  Once the installed flag is set an
    activation, whatever its handle, returns at once and changes nothing; so
    does an activation with an undefined handle; and after a first
    installation on a host handle any further activations leave
    [jasmine.Spec.prototype.runs] holding the one interceptor, whose captured
    [runs] and [waitsFor] are the host's primitives as they were before. *)
Theorem installation_idempotent :
  (forall (jasmine : value) (st : state),
      duckPunchedAlready st = true ->
      jasmineAsPromised jasmine st = Ok VUndefined st) /\
  (forall st : state, jasmineAsPromised VUndefined st = Ok VUndefined st) /\
  (forall (jasmine : value) (st : state) (p : nat),
      duckPunchedAlready st = false ->
      prototype_of (heap st) jasmine = VRef p ->
      p < length (heap st) ->
      exists st',
        jasmineAsPromised jasmine st = Ok VUndefined st' /\
        duckPunchedAlready st' = true /\
        (forall handles : list value, activate_all handles st' = st') /\
        prototype_of (heap st') jasmine = VRef p /\
        prop_of (heap st') (VRef p) "runs" = VRef (length (heap st)) /\
        code_of (heap st') (VRef (length (heap st))) =
          Some (Interceptor (prop_of (heap st) (VRef p) "runs")
                            (prop_of (heap st) (VRef p) "waitsFor"))).
Proof.
  split; [apply jasmineAsPromised_punched|].
  split; [apply jasmineAsPromised_undefined|].
  intros jasmine st p Hflag Hproto Hp.
  eexists. split; [by apply jasmineAsPromised_installs|].
  split; [reflexivity|].
  split; [intros handles; by apply activate_all_punched|].
  by apply installed_heap_spec.
Qed.

Lemma installation_idempotent_witness :
  jasmineAsPromised Sample.jasmine Sample.st1 = Ok VUndefined Sample.st1 /\
  jasmineAsPromised VUndefined Sample.st0 = Ok VUndefined Sample.st0 /\
  exists st',
    jasmineAsPromised Sample.jasmine Sample.st0 = Ok VUndefined st' /\
    duckPunchedAlready st' = true /\
    (forall handles : list value, activate_all handles st' = st') /\
    prototype_of (heap st') Sample.jasmine = VRef 2 /\
    prop_of (heap st') (VRef 2) "runs" = VRef 13 /\
    code_of (heap st') (VRef 13) = Some (Interceptor Sample.runs0 Sample.waitsFor0).
Proof.
  destruct installation_idempotent as (H1 & H2 & H3).
  split; [apply H1; reflexivity|].
  split; [apply H2|].
  apply (H3 Sample.jasmine Sample.st0 2); [reflexivity | reflexivity | simpl; lia].
Defined.

(** C10: installation is not atomic on error.  With a handle that is null
    or has no [Spec], the flag is set before [jasmine.Spec.prototype] is
    read; the read throws a TypeError, the flag stays set, and every later
    activation, a valid handle included, returns at once and patches
    nothing. *)
Theorem failed_installation_sticks (jasmine : value) (st : state) :
  duckPunchedAlready st = false ->
  jasmine <> VUndefined ->
  jasmine = VNull \/ prop_of (heap st) jasmine "Spec" = VUndefined ->
  jasmineAsPromised jasmine st = Throw TypeError (set_duckPunchedAlready true st) /\
  forall jasmine' : value,
    jasmineAsPromised jasmine' (set_duckPunchedAlready true st)
    = Ok VUndefined (set_duckPunchedAlready true st).
Proof.
  intros Hflag Hdef Hbad. split; [|intros; by apply jasmineAsPromised_punched].
  unfold jasmineAsPromised.
  erewrite bind_ok by reflexivity. rewrite Hflag.
  erewrite bind_ok by apply isDefined_eval.
  rewrite bool_decide_eq_true_2 by done. simpl.
  erewrite bind_ok by reflexivity.
  apply bind_throw. unfold spec_prototype.
  destruct Hbad as [-> | Hspec]; [reflexivity|].
  destruct (decide (jasmine = VNull)) as [-> | Hnull]; [reflexivity|].
  erewrite bind_ok by (by apply get_prop_eval).
  cbn [heap set_duckPunchedAlready]. by rewrite Hspec.
Qed.

Lemma failed_installation_sticks_witness :
  (jasmineAsPromised VNull Sample.st0
   = Throw TypeError (set_duckPunchedAlready true Sample.st0) /\
   forall jasmine' : value,
     jasmineAsPromised jasmine' (set_duckPunchedAlready true Sample.st0)
     = Ok VUndefined (set_duckPunchedAlready true Sample.st0)) /\
  (jasmineAsPromised Sample.emptyObject Sample.st0
   = Throw TypeError (set_duckPunchedAlready true Sample.st0) /\
   forall jasmine' : value,
     jasmineAsPromised jasmine' (set_duckPunchedAlready true Sample.st0)
     = Ok VUndefined (set_duckPunchedAlready true Sample.st0)).
Proof.
  split.
  - apply (failed_installation_sticks VNull Sample.st0);
      [reflexivity | discriminate | by left].
  - apply (failed_installation_sticks Sample.emptyObject Sample.st0);
      [reflexivity | discriminate | right; reflexivity].
Defined.

(** ** Automatic discovery *)

Lemma nmodule_forall_ind (P : nmodule -> Prop) :
  (forall id exports children, Forall P children -> P (NModule id exports children)) ->
  forall m, P m.
Proof.
  intros H. fix IH 1. intros [id exports children]. apply H.
  induction children as [|c cs IHcs]; constructor; [apply IH | apply IHcs].
Qed.

Lemma findNodeJSTarget_none (suffix : string) (m : nmodule) :
  no_jasmine_module suffix m -> findNodeJSTarget m suffix = VUndefined.
Proof.
  induction m as [id exports children IH] using nmodule_forall_ind.
  intros Hno. inversion Hno as [id' e' cs' Hhere Hchildren]; subst.
  simpl in *. rewrite Hhere.
  induction children as [|c cs IHcs]; [reflexivity|].
  inversion IH; subst. inversion Hchildren; subst.
  rewrite H1 by done. simpl. apply IHcs; [done| |done].
  constructor; done.
Qed.

(** In Node, without a Jasmine module in the tree of [require.main], the
    entry point throws the error of l.91. *)
Lemma module_exports_no_module (env : environment) (main : nmodule) (target : value) (st : state) :
  truthy target = false ->
  real_node env = true ->
  require_main env = Some main ->
  no_jasmine_module (path_join (path_sep env) ["jasmine"; "lib"; "jasmine.js"]) main ->
  module_exports env target st = Throw (Error no_module_message) st.
Proof.
  intros Ht Hnode Hmain Hno. unfold module_exports.
  rewrite Ht, Hnode, Hmain. simpl negb. cbv iota.
  rewrite findNodeJSTarget_none by done. reflexivity.
Qed.

(** Outside Node, with a binding [jasmine] that holds undefined, it throws
    the error of l.99. *)
Lemma module_exports_no_environment (env : environment) (target : value) (st : state) :
  truthy target = false ->
  real_node env = false ->
  jasmine_global env = Some VUndefined ->
  module_exports env target st = Throw (Error no_environment_message) st.
Proof.
  intros Ht Hnode Hj. unfold module_exports, read_jasmine.
  rewrite Ht, Hnode, Hj. reflexivity.
Qed.

Example findNodeJSTarget_finds :
  findNodeJSTarget
    (NModule "/work/spec/runner.js" (VRef 5)
       [NModule "/work/node_modules/q/q.js" (VRef 11) [];
        NModule "/usr/lib/node_modules/jasmine/lib/jasmine.js" (VRef 0) []])
    "jasmine/lib/jasmine.js" = VRef 0.
Proof. reflexivity. Qed.

Example module_exports_node_with_jasmine :
  module_exports node_with_jasmine VUndefined Sample.st0
  = jasmineAsPromised Sample.jasmine Sample.st0.
Proof. reflexivity. Qed.

Example module_exports_node_without_jasmine :
  module_exports node_without_jasmine VUndefined Sample.st0
  = Throw (Error no_module_message) Sample.st0.
Proof.
  apply module_exports_no_module with
    (main := NModule "/work/spec/runner.js" (VRef 5)
               [NModule "/work/node_modules/q/q.js" (VRef 11) []]);
    try reflexivity.
  repeat constructor.
Qed.

Example module_exports_undefined_jasmine :
  module_exports emulation_with_undefined_jasmine VUndefined Sample.st0
  = Throw (Error no_environment_message) Sample.st0.
Proof. by apply module_exports_no_environment. Qed.

(** X18: whenever discovery fails the entry point throws, and what it
    throws leaves the state, the installed flag included, as it was. *)
Lemma module_exports_never_silent (env : environment) (target : value) (st : state) :
  truthy target = false ->
  (real_node env = true /\
   forall main, require_main env = Some main ->
     no_jasmine_module (path_join (path_sep env) ["jasmine"; "lib"; "jasmine.js"]) main) \/
  (real_node env = false /\
   (jasmine_global env = None \/ jasmine_global env = Some VUndefined)) ->
  exists e, module_exports env target st = Throw e st.
Proof.
  intros Ht [[Hnode Hmain] | [Hnode [Hj | Hj]]].
  - destruct (require_main env) as [main|] eqn:E.
    + exists (Error no_module_message). apply module_exports_no_module with main; auto.
    + exists TypeError. unfold module_exports. by rewrite Ht, Hnode, E.
  - exists (ReferenceError "jasmine"). unfold module_exports, read_jasmine.
    by rewrite Ht, Hnode, Hj.
  - exists (Error no_environment_message). by apply module_exports_no_environment.
Qed.

(** C9, at the failing input: outside Node and without any binding named
    [jasmine], evaluating the argument of [isDefined(jasmine)] (l.95) throws
    a ReferenceError; the descriptive error of l.99 is not reached. *)
Theorem module_exports_reference_error :
  forall st : state,
    module_exports emulation_without_jasmine VUndefined st
    = Throw (ReferenceError "jasmine") st /\
    module_exports emulation_without_jasmine VUndefined st
    <> Throw (Error no_environment_message) st.
Proof.
  intros st. split; [reflexivity | discriminate].
Qed.

(** ** Frame properties of calls *)

#[local] Instance evolves_preorder : PreOrder evolves.
Proof.
  split.
  - intros st. by constructor.
  - intros a b c [F1 L1 T1 C1] [F2 L2 T2 C2]. constructor; eauto. lia.
Qed.

#[local] Instance grows_preorder : PreOrder grows.
Proof.
  split.
  - intros st. constructor; try done. exists []. by rewrite app_nil_r.
  - intros a b c [E1 F1 X1 [q1 Q1]] [E2 F2 X2 [q2 Q2]]. constructor.
    + by trans b.
    + congruence.
    + congruence.
    + exists (q1 ++ q2). rewrite Q2, Q1. by rewrite app_assoc.
Qed.

Lemma preserves_ret {A} (R : state -> state -> Prop) `{!PreOrder R} (a : A) :
  preserves R (ret a).
Proof. intros st. reflexivity. Qed.

Lemma preserves_throw {A} (R : state -> state -> Prop) `{!PreOrder R} (e : exn) :
  preserves R (@throw A e).
Proof. intros st. reflexivity. Qed.

Lemma preserves_bind {A B} (R : state -> state -> Prop) `{!PreOrder R}
    (m : M A) (k : A -> M B) :
  preserves R m -> (forall a, preserves R (k a)) -> preserves R (bind m k).
Proof.
  intros Hm Hk st. unfold bind. specialize (Hm st).
  destruct (m st) as [a st1 | e st1]; simpl in *; [|done].
  etrans; [exact Hm | apply Hk].
Qed.

Lemma code_of_valid (h : list object) (f : value) (c : closure) :
  code_of h f = Some c -> exists l, f = VRef l /\ l < length h.
Proof.
  destruct f as [| | b | n | s | l]; try discriminate. simpl.
  unfold obj_at. destruct (h !! l) eqn:E; [|discriminate].
  intros _. exists l. split; [done|]. by eapply lookup_lt_Some.
Qed.

Lemma code_of_app (h ext : list object) (f : value) (c : closure) :
  code_of h f = Some c -> code_of (h ++ ext) f = Some c.
Proof.
  intros H. destruct (code_of_valid _ _ _ H) as (l & -> & Hl).
  simpl in *. by rewrite obj_at_app.
Qed.

Lemma code_of_set_prop (h : list object) (l : nat) (pm : gmap string value) (f : value) :
  code_of (<[l := mkObject (code (obj_at h l)) pm]> h) f = code_of h f.
Proof.
  destruct f as [| | b | n | s | j]; try reflexivity. simpl.
  rewrite obj_at_insert. case_decide as Hd; [|done]. by destruct Hd as [-> _].
Qed.

Lemma code_of_apply_ops (ops : list heap_op) (h : list object) (f : value) (c : closure) :
  code_of h f = Some c -> code_of (apply_ops ops h) f = Some c.
Proof.
  revert h. induction ops as [|op ops IH]; intros h H; [done|].
  unfold apply_ops in *. simpl. apply IH.
  destruct op as [l k v | o]; simpl.
  - by rewrite code_of_set_prop.
  - by apply code_of_app.
Qed.

(** States that differ in the heap only, by allocation or property writes. *)
Ltac grows_same_queue :=
  constructor;
  [ constructor; simpl; auto
  | reflexivity
  | reflexivity
  | exists []; simpl; by rewrite app_nil_r ].

Lemma grows_set_heap (h : list object) (st : state) :
  (forall f c, code_of (heap st) f = Some c -> code_of h f = Some c) ->
  grows st (set_heap h st).
Proof. intros H. grows_same_queue. Qed.

Lemma results_insert_true (rs : list bool) (r i : nat) :
  rs !! i = Some true -> <[r := true]> rs !! i = Some true.
Proof.
  intros H. destruct (decide (r = i)) as [->|Hne].
  - rewrite list_lookup_insert_eq; [done|]. by eapply lookup_lt_Some.
  - by rewrite list_lookup_insert_ne.
Qed.

Lemma grows_set_results (rs : list bool) (st : state) :
  length (results st) <= length rs ->
  (forall i, results st !! i = Some true -> rs !! i = Some true) ->
  grows st (set_results rs st).
Proof. intros Hl Ht. grows_same_queue. Qed.

Lemma grows_set_promises (ps : list promise) (st : state) :
  grows st (set_promises ps st).
Proof. grows_same_queue. Qed.

Lemma grows_set_calls (cs : list (nat * value * list value)) (st : state) :
  grows st (set_calls cs st).
Proof. grows_same_queue. Qed.

Lemma grows_enqueue (b : block) (st : state) :
  grows st (set_queue (queue st ++ [b]) st).
Proof.
  constructor; [constructor; simpl; auto | reflexivity | reflexivity | by exists [b]].
Qed.

Lemma preserves_unchanged {A} (R : state -> state -> Prop) `{!PreOrder R} (m : M A) :
  (forall st, final (m st) = st) -> preserves R m.
Proof. intros H st. rewrite H. reflexivity. Qed.

Lemma isPromise_grows (x : value) : preserves grows (isPromise x).
Proof.
  apply preserves_unchanged; [apply _|]. intros st.
  destruct (isPromise_boolean x st) as [b ->]. reflexivity.
Qed.

Lemma isDefined_grows (x : value) : preserves grows (isDefined x).
Proof.
  apply preserves_unchanged; [apply _|]. intros st. by rewrite isDefined_eval.
Qed.

Lemma get_prop_grows (x : value) (k : string) : preserves grows (get_prop x k).
Proof.
  apply preserves_unchanged; [apply _|]. intros st. by destruct x.
Qed.

Lemma new_result_grows : preserves grows new_result.
Proof.
  intros st. simpl. apply grows_set_results.
  - rewrite length_app. lia.
  - intros i Hi. by apply lookup_app_l_Some.
Qed.

Lemma new_function_grows (c : closure) : preserves grows (new_function c).
Proof.
  intros st. simpl. apply grows_set_heap. intros f c'. apply code_of_app.
Qed.

Lemma onReleaseWait_grows (r : nat) : preserves grows (onReleaseWait r).
Proof.
  intros st. simpl. apply grows_set_results.
  - by rewrite length_insert.
  - intros i. apply results_insert_true.
Qed.

Lemma latchCheck_grows (r : nat) : preserves grows (latchCheck r).
Proof. apply preserves_unchanged; [apply _|]. done. Qed.

Lemma host_runs_grows (this func : value) : preserves grows (host_runs this func).
Proof. intros st. apply grows_enqueue. Qed.

Lemma host_waitsFor_grows (this latchFunction timeout : value) :
  preserves grows (host_waitsFor this latchFunction timeout).
Proof. intros st. apply grows_enqueue. Qed.

Lemma promise_then_grows (p : nat) (a b : value) : preserves grows (promise_then p a b).
Proof.
  intros st. unfold promise_then. destruct (promises st !! p); simpl.
  - apply grows_set_promises.
  - reflexivity.
Qed.

Section CallFrame.

Variable user : user_semantics.

Lemma user_call_grows (id : nat) (this : value) (args : list value) :
  preserves grows (user_call user id this args).
Proof.
  intros st. unfold user_call.
  destruct (user id this args (heap st)) as [ops c].
  assert (grows st (set_calls (calls st ++ [(id, this, args)])
                      (set_heap (apply_ops ops (heap st)) st))) as H.
  { trans (set_heap (apply_ops ops (heap st)) st).
    - apply grows_set_heap. intros f c'. apply code_of_apply_ops.
    - apply (grows_set_calls _ (set_heap _ st)). }
  by destruct c.
Qed.

Lemma adapter_grows (callf : value -> value -> list value -> M value)
    (runFn : value) (r : nat) (onRel : value) :
  (forall f this args, preserves grows (callf f this args)) ->
  preserves grows (adapter callf runFn r onRel).
Proof.
  intros Hcall. unfold adapter.
  apply preserves_bind; [apply _ | apply Hcall |]. intros retVal.
  apply preserves_bind; [apply _ | apply isPromise_grows |]. intros d.
  destruct (truthy d).
  - apply preserves_bind; [apply _ | apply get_prop_grows |]. intros th.
    apply preserves_bind; [apply _ | apply Hcall |]. intros _.
    apply preserves_ret, _.
  - apply preserves_bind; [apply _ | apply onReleaseWait_grows |]. intros _.
    apply preserves_ret, _.
Qed.

Lemma interceptor_grows (callf : value -> value -> list value -> M value)
    (runs waitsFor this runFn expectFn timeOut : value) :
  (forall f this args, preserves grows (callf f this args)) ->
  preserves grows (interceptor callf runs waitsFor this runFn expectFn timeOut).
Proof.
  intros Hcall. unfold interceptor.
  apply preserves_bind; [apply _ | apply new_result_grows |]. intros r.
  apply preserves_bind; [apply _ | apply new_function_grows |]. intros onRel.
  apply preserves_bind; [apply _ | apply new_function_grows |]. intros step.
  apply preserves_bind; [apply _ | apply Hcall |]. intros _.
  apply preserves_bind; [apply _ | apply new_function_grows |]. intros latch.
  apply preserves_bind; [apply _ | apply Hcall |]. intros _.
  apply preserves_bind; [apply _ | apply isDefined_grows |]. intros d.
  destruct (truthy d).
  - apply preserves_bind; [apply _ | apply Hcall |]. intros _.
    apply preserves_ret, _.
  - apply preserves_ret, _.
Qed.

Lemma call_grows (stack : nat) (f this : value) (args : list value) :
  preserves grows (call user stack f this args).
Proof.
  revert f this args. induction stack as [|n IH]; intros f this args.
  - apply preserves_throw, _.
  - intros st. simpl.
    destruct (code_of (heap st) f) as [c|]; [|reflexivity].
    destruct c.
    + apply host_runs_grows.
    + apply host_waitsFor_grows.
    + by apply interceptor_grows.
    + unfold interceptor_toString.
      apply preserves_bind; [apply _ | apply get_prop_grows |]. intros m. apply IH.
    + apply onReleaseWait_grows.
    + by apply adapter_grows.
    + apply latchCheck_grows.
    + apply promise_then_grows.
    + apply user_call_grows.
Qed.

End CallFrame.

(** ** Every event lets the state evolve *)

Lemma evolves_same (st st' : state) :
  duckPunchedAlready st' = duckPunchedAlready st ->
  results st' = results st -> heap st' = heap st -> evolves st st'.
Proof. intros Hf Hr Hh. constructor; rewrite ?Hf, ?Hr, ?Hh; auto. Qed.

Lemma preserves_grows_evolves {A} (m : M A) :
  preserves grows m -> preserves evolves m.
Proof. intros H st. apply grows_evolves, H. Qed.

Lemma set_prop_grows (x : value) (k : string) (v : value) : preserves grows (set_prop x k v).
Proof.
  intros st. destruct x as [| | b | n | s | l]; try reflexivity. simpl.
  apply grows_set_heap. intros f c. by rewrite code_of_set_prop.
Qed.

Lemma jasmineAsPromised_evolves (jasmine : value) :
  preserves evolves (jasmineAsPromised jasmine).
Proof.
  unfold jasmineAsPromised.
  apply preserves_bind; [apply _ | by apply preserves_unchanged; [apply _|] |].
  intros punched. destruct punched; [apply preserves_ret, _|].
  apply preserves_bind; [apply _ | apply preserves_grows_evolves, isDefined_grows |].
  intros d. destruct (negb (truthy d)); [apply preserves_ret, _|].
  apply preserves_bind; [apply _ | |].
  { intros st. simpl. by constructor. }
  intros _.
  assert (Hproto : preserves evolves (spec_prototype jasmine)).
  { apply preserves_grows_evolves. unfold spec_prototype.
    apply preserves_bind; [apply _ | apply get_prop_grows |]. intros S.
    apply get_prop_grows. }
  apply preserves_bind; [apply _ | apply Hproto |]. intros proto.
  apply preserves_bind; [apply _ | apply preserves_grows_evolves, get_prop_grows |].
  intros runs.
  apply preserves_bind; [apply _ | apply Hproto |]. intros proto'.
  apply preserves_bind; [apply _ | apply preserves_grows_evolves, get_prop_grows |].
  intros waitsFor.
  apply preserves_bind; [apply _ | apply preserves_grows_evolves, new_function_grows |].
  intros i.
  apply preserves_bind; [apply _ | apply preserves_grows_evolves, new_function_grows |].
  intros t.
  apply preserves_bind; [apply _ | apply preserves_grows_evolves, set_prop_grows |].
  intros _.
  apply preserves_bind; [apply _ | apply Hproto |]. intros proto''.
  apply preserves_bind; [apply _ | apply preserves_grows_evolves, set_prop_grows |].
  intros _. apply preserves_ret, _.
Qed.

Section RunFrame.

Variable user : user_semantics.

Lemma call_evolves (stack : nat) (f this : value) (args : list value) (st : state) :
  evolves st (final (call user stack f this args st)).
Proof. apply grows_evolves, call_grows. Qed.

Lemma tick_evolves (stack : nat) (st : state) : evolves st (tick user stack st).
Proof.
  unfold tick. destruct (queue st) as [|[spec func | spec latch timeout waited] rest];
    [reflexivity | |].
  - pose proof (call_evolves stack func spec [] st) as H.
    destruct (call user stack func spec [] st) as [v st' | e st']; simpl in H;
      (etrans; [exact H | by apply evolves_same]).
  - pose proof (call_evolves stack latch spec [] st) as H.
    destruct (call user stack latch spec [] st) as [v st' | e st']; simpl in H.
    + destruct (truthy v); [|destruct (effective_timeout timeout <=? waited)%Z];
        (etrans; [exact H | by apply evolves_same]).
    + etrans; [exact H | by apply evolves_same].
Qed.

Lemma settle_evolves (p : nat) (s : settlement) (st : state) :
  evolves st (settle p s st).
Proof.
  unfold settle. destruct (promises st !! p) as [[[s'|] rs]|]; try reflexivity.
  by apply evolves_same.
Qed.

Lemma deliver_evolves (stack p : nat) (st : state) : evolves st (deliver user stack p st).
Proof.
  unfold deliver.
  destruct (promises st !! p) as [[[s|] [|[onF onR] rs]]|]; try reflexivity.
  destruct s as [v | e];
    (etrans; [|apply call_evolves]; by apply evolves_same).
Qed.

Lemma exec_evolves (stack : nat) (ev : event) (st : state) :
  evolves st (exec user stack ev st).
Proof.
  destruct ev as [f this args | jasmine | | p s | p]; simpl.
  - apply call_evolves.
  - apply jasmineAsPromised_evolves.
  - apply tick_evolves.
  - apply settle_evolves.
  - apply deliver_evolves.
Qed.

Lemma run_evolves (stack : nat) (evs : list event) (st : state) :
  evolves st (run user stack evs st).
Proof.
  revert st. induction evs as [|ev evs IH]; intros st; [reflexivity|].
  unfold run in *. simpl. etrans; [apply exec_evolves | apply IH].
Qed.

End RunFrame.

(** ** The interceptor on the host's primitives *)

Section Interceptor.

Variable user : user_semantics.

Lemma call_code (stack : nat) (f this : value) (args : list value) (st : state) (c : closure) :
  code_of (heap st) f = Some c ->
  call user (S stack) f this args st =
  match c with
  | HostRuns => host_runs this (arg 0 args) st
  | HostWaitsFor => host_waitsFor this (arg 0 args) (arg 1 args) st
  | Interceptor runs waitsFor =>
      interceptor (call user stack) runs waitsFor this
        (arg 0 args) (arg 1 args) (arg 2 args) st
  | InterceptorToString runs => interceptor_toString (call user stack) runs st
  | OnReleaseWait r => onReleaseWait r st
  | Adapter runFn r onReleaseWaitFn =>
      adapter (call user stack) runFn r onReleaseWaitFn st
  | LatchCheck r => latchCheck r st
  | PromiseThen p => promise_then p (arg 0 args) (arg 1 args) st
  | UserFn id => user_call user id this args st
  end.
Proof. intros H. simpl. by rewrite H. Qed.

Lemma interceptor_host (stack : nat) (runs waitsFor this runFn expectFn timeOut : value)
    (st : state) :
  code_of (heap st) runs = Some HostRuns ->
  code_of (heap st) waitsFor = Some HostWaitsFor ->
  interceptor (call user (S stack)) runs waitsFor this runFn expectFn timeOut st
  = Ok VUndefined (scheduled st this runFn expectFn timeOut).
Proof.
  intros Hruns Hwaits. unfold interceptor.
  erewrite bind_ok by reflexivity.
  erewrite bind_ok by reflexivity.
  erewrite bind_ok by reflexivity.
  erewrite bind_ok.
  2:{ erewrite call_code by (cbn [heap set_heap set_results]; by do 2 apply code_of_app).
      reflexivity. }
  erewrite bind_ok by reflexivity.
  erewrite bind_ok.
  2:{ erewrite call_code by (cbn [heap set_heap set_results set_queue]; by do 3 apply code_of_app).
      reflexivity. }
  erewrite bind_ok by apply isDefined_eval.
  cbn [truthy]. unfold scheduled. destruct (bool_decide (expectFn <> VUndefined)).
  - erewrite bind_ok.
    2:{ erewrite call_code
          by (cbn [heap set_heap set_results set_queue]; by do 3 apply code_of_app).
        reflexivity. }
    unfold ret, scheduled, set_queue, set_heap, set_results, arg; simpl.
    rewrite !length_app, <- !app_assoc; simpl.
    rewrite !Nat.add_1_r. reflexivity.
  - unfold ret, scheduled, set_queue, set_heap, set_results, arg; simpl.
    rewrite !length_app, <- !app_assoc; simpl.
    rewrite !Nat.add_1_r. reflexivity.
Qed.

(** The closures an activation leaves, and its latch. *)
Lemma scheduled_closures (this runFn expectFn timeOut : value) (st : state) :
  let st' := scheduled st this runFn expectFn timeOut in
  let r := length (results st) in
  let l := length (heap st) in
  code_of (heap st') (VRef l) = Some (OnReleaseWait r) /\
  code_of (heap st') (VRef (S l)) = Some (Adapter runFn r (VRef l)) /\
  code_of (heap st') (VRef (S (S l))) = Some (LatchCheck r) /\
  r < length (results st') /\
  results st' !! r = Some false.
Proof.
  simpl. unfold obj_at.
  rewrite !lookup_app_r by lia.
  rewrite Nat.sub_diag.
  replace (S (length (heap st)) - length (heap st)) with 1 by lia.
  replace (S (S (length (heap st))) - length (heap st)) with 2 by lia.
  rewrite length_app, Nat.sub_diag. simpl. repeat split; try reflexivity. lia.
Qed.

(** C6: the interceptor forwards [timeOut] to the host's poll primitive
    as it received it: the poll block it leaves in the queue carries the
    third actual argument, undefined when the argument is absent, and then
    the host's default applies. *)
Theorem timeout_forwarded (stack : nat) (f this runs waitsFor : value)
    (args : list value) (st : state) :
  code_of (heap st) f = Some (Interceptor runs waitsFor) ->
  code_of (heap st) runs = Some HostRuns ->
  code_of (heap st) waitsFor = Some HostWaitsFor ->
  exists st' step latch rest,
    call user (S (S stack)) f this args st = Ok VUndefined st' /\
    queue st' = queue st ++ Block this step
                  :: WaitsForBlock this latch (arg 2 args) 0 :: rest /\
    (forall b, b ∈ rest -> exists func, b = Block this func) /\
    (forall n : Z, args !! 2 = Some (VNum n) -> effective_timeout (arg 2 args) = n) /\
    (length args <= 2 ->
     arg 2 args = VUndefined /\
     effective_timeout (arg 2 args) = defaultTimeoutInterval).
Proof.
  intros Hf Hruns Hwaits.
  do 4 eexists. split.
  { erewrite call_code by exact Hf. by apply interceptor_host. }
  split; [reflexivity|]. split; [|split].
  - intros b Hb. destruct (bool_decide (arg 1 args <> VUndefined)).
    + apply list_elem_of_singleton in Hb. eauto.
    + by apply elem_of_nil in Hb.
  - intros n Hn. unfold arg. by rewrite Hn.
  - intros Hlen. unfold arg. by rewrite lookup_ge_None_2.
Qed.

End Interceptor.

Lemma timeout_forwarded_witness :
  exists st' step latch rest,
    call Sample.user0 2 Sample.installed Sample.spec
      [Sample.body; Sample.followUp; VNum 250] Sample.st1 = Ok VUndefined st' /\
    queue st' = queue Sample.st1 ++ Block Sample.spec step
                  :: WaitsForBlock Sample.spec latch (VNum 250) 0 :: rest /\
    (forall b, b ∈ rest -> exists func, b = Block Sample.spec func) /\
    (forall n : Z, Some (VNum 250) = Some (VNum n) -> effective_timeout (VNum 250) = n) /\
    (3 <= 2 -> VNum 250 = VUndefined /\ effective_timeout (VNum 250) = defaultTimeoutInterval).
Proof.
  apply (timeout_forwarded Sample.user0 0 Sample.installed Sample.spec
           Sample.runs0 Sample.waitsFor0
           [Sample.body; Sample.followUp; VNum 250] Sample.st1);
    reflexivity.
Defined.

(** ** The completion latch *)

Section Latch.

Variable user : user_semantics.

Lemma latchCheck_true (stack : nat) (latch this : value) (r : nat) (st : state) :
  code_of (heap st) latch = Some (LatchCheck r) ->
  (call user (S stack) latch this [] st = Ok (VBool true) st
   <-> results st !! r = Some true).
Proof.
  intros Hc. erewrite call_code by exact Hc. unfold latchCheck. split.
  - intros [= H]. destruct (results st !! r) as [[|]|]; done.
  - intros ->. reflexivity.
Qed.

(** C7: the latch of an activation is monotonic.  It is created false, in
    a variable no earlier activation has; the one mutation there is sets it
    to true and touches no other latch; no event ever turns a true latch
    false, so a poll condition that has observed true observes true at
    every later check. *)
Theorem latch_monotonic :
  (forall st : state,
      exists r st', new_result st = Ok r st' /\
                    results st !! r = None /\ results st' !! r = Some false) /\
  (forall (r : nat) (st : state),
      r < length (results st) ->
      exists st', onReleaseWait r st = Ok (VBool true) st' /\
                  results st' !! r = Some true /\
                  forall i, i <> r -> results st' !! i = results st !! i) /\
  (forall (stack r : nat) (evs : list event) (st : state),
      results st !! r = Some true ->
      results (run user stack evs st) !! r = Some true) /\
  (forall (stack k r : nat) (evs : list event) (latch this : value) (st : state),
      code_of (heap st) latch = Some (LatchCheck r) ->
      call user (S k) latch this [] st = Ok (VBool true) st ->
      call user (S k) latch this [] (run user stack evs st)
      = Ok (VBool true) (run user stack evs st)).
Proof.
  repeat split.
  - intros st. exists (length (results st)). eexists. split; [reflexivity|]. split.
    + by apply lookup_ge_None_2.
    + simpl. rewrite lookup_app_r by lia. by rewrite Nat.sub_diag.
  - intros r st Hr. eexists. split; [reflexivity|]. simpl. split.
    + by apply list_lookup_insert_eq.
    + intros i Hi. by apply list_lookup_insert_ne.
  - intros stack r evs st Hr. by apply (evolves_true _ _ (run_evolves user stack evs st)).
  - intros stack k r evs latch this st Hc Hcall.
    pose proof (run_evolves user stack evs st) as E.
    apply (latchCheck_true _ _ _ r); [by apply (evolves_code _ _ E)|].
    apply (evolves_true _ _ E). by apply (latchCheck_true k latch this).
Qed.

Lemma adapter_synchronous (n : nat) (runFn onRel v : value) (r : nat) (st st1 : state) :
  call user n runFn VUndefined [] st = Ok v st1 ->
  isPromise v st1 = Ok (VBool false) st1 ->
  adapter (call user n) runFn r onRel st
  = Ok VUndefined (set_results (<[r := true]> (results st1)) st1).
Proof.
  intros Hbody Hsync. unfold adapter.
  erewrite bind_ok by exact Hbody.
  erewrite bind_ok by exact Hsync.
  reflexivity.
Qed.

(** C5: a step whose body returns a value that is not a deferred
    computation has its latch set inside the adapter, in the runner turn
    that executes the step and before the poll block has been checked at
    all; the first check of the poll condition is true, the poll block
    completes in that turn, no failure is recorded and the rest of the
    queue is kept. *)
Theorem synchronous_step_completes (n r : nat) (st st1 : state)
    (spec step latch timeout runFn onRel v : value) (rest : list block) :
  queue st = Block spec step :: WaitsForBlock spec latch timeout 0 :: rest ->
  code_of (heap st) step = Some (Adapter runFn r onRel) ->
  code_of (heap st) latch = Some (LatchCheck r) ->
  r < length (results st) ->
  call user n runFn VUndefined [] st = Ok v st1 ->
  isPromise v st1 = Ok (VBool false) st1 ->
  let st2 := tick user (S n) st in
  let st3 := tick user (S n) st2 in
  results st2 !! r = Some true /\
  (exists extra,
      queue st2 = WaitsForBlock spec latch timeout 0 :: rest ++ extra /\
      queue st3 = rest ++ extra) /\
  call user (S n) latch spec [] st2 = Ok (VBool true) st2 /\
  failures st3 = failures st.
Proof.
  intros Hq Hstep Hlatch Hr Hbody Hsync st2 st3.
  pose proof (call_grows user n runFn VUndefined [] st) as G.
  rewrite Hbody in G. simpl in G.
  destruct G as [[_ Hlen _ Hcode] _ Hfail [extra Hextra]].
  assert (Hst2 : st2 = drop_head (set_results (<[r := true]> (results st1)) st1)).
  { unfold st2, tick. rewrite Hq.
    erewrite call_code by exact Hstep. cbv iota.
    by erewrite adapter_synchronous. }
  assert (Hr2 : results st2 !! r = Some true).
  { rewrite Hst2. simpl. apply list_lookup_insert_eq. lia. }
  assert (Hq2 : queue st2 = WaitsForBlock spec latch timeout 0 :: rest ++ extra).
  { rewrite Hst2. simpl. rewrite Hextra, Hq. reflexivity. }
  assert (Hc2 : code_of (heap st2) latch = Some (LatchCheck r)).
  { rewrite Hst2. simpl. by apply Hcode. }
  assert (Hpoll : call user (S n) latch spec [] st2 = Ok (VBool true) st2).
  { by apply (latchCheck_true n latch spec r). }
  assert (Hst3 : st3 = drop_head st2).
  { unfold st3, tick. rewrite Hq2, Hpoll. reflexivity. }
  split; [exact Hr2|]. split; [|split; [exact Hpoll|]].
  - exists extra. split; [exact Hq2|]. rewrite Hst3. simpl. by rewrite Hq2.
  - rewrite Hst3, Hst2. simpl. exact Hfail.
Qed.

End Latch.

Lemma latch_monotonic_witness :
  (exists r st', new_result Sample.st1 = Ok r st' /\
                 results Sample.st1 !! r = None /\ results st' !! r = Some false) /\
  (exists st', onReleaseWait 0 Sample.sync_scheduled = Ok (VBool true) st' /\
               results st' !! 0 = Some true /\
               forall i, i <> 0 -> results st' !! i = results Sample.sync_scheduled !! i) /\
  results (run Sample.user0 10 [Tick; Tick]
             (run Sample.user0 10 [Tick] Sample.sync_scheduled)) !! 0 = Some true /\
  call Sample.user0 1 Sample.latch Sample.spec []
    (run Sample.user0 10 [Invoke Sample.installed Sample.spec [Sample.body]]
       (run Sample.user0 10 [Tick] Sample.sync_scheduled))
  = Ok (VBool true)
      (run Sample.user0 10 [Invoke Sample.installed Sample.spec [Sample.body]]
         (run Sample.user0 10 [Tick] Sample.sync_scheduled)).
Proof.
  destruct (latch_monotonic Sample.user0) as (H1 & H2 & H3 & H4).
  split; [apply H1|].
  split; [apply H2; vm_compute; lia|].
  split; [apply H3; vm_compute; reflexivity|].
  apply (H4 10 0 0 [Invoke Sample.installed Sample.spec [Sample.body]]
           Sample.latch Sample.spec (run Sample.user0 10 [Tick] Sample.sync_scheduled));
    vm_compute; reflexivity.
Defined.

Lemma synchronous_step_completes_witness :
  let st2 := tick Sample.user0 2 Sample.sync_scheduled in
  let st3 := tick Sample.user0 2 st2 in
  results st2 !! 0 = Some true /\
  (exists extra,
      queue st2 = WaitsForBlock Sample.spec Sample.latch VUndefined 0 :: [] ++ extra /\
      queue st3 = [] ++ extra) /\
  call Sample.user0 2 Sample.latch Sample.spec [] st2 = Ok (VBool true) st2 /\
  failures st3 = failures Sample.sync_scheduled.
Proof.
  apply (synchronous_step_completes Sample.user0 1 0 Sample.sync_scheduled
           (final (call Sample.user0 1 Sample.syncBody VUndefined [] Sample.sync_scheduled))
           Sample.spec Sample.step Sample.latch VUndefined Sample.syncBody
           Sample.onReleaseWaitFn VUndefined []);
    [reflexivity | reflexivity | reflexivity | vm_compute; lia | reflexivity | reflexivity].
Defined.

(** ** Settlement *)

Section Settlement.

Variable user : user_semantics.

Lemma adapter_deferred (n : nat) (runFn onRel retVal : value) (r p : nat)
    (pr : promise) (st st1 : state) :
  call user n runFn VUndefined [] st = Ok retVal st1 ->
  isPromise retVal st1 = Ok (VBool true) st1 ->
  code_of (heap st1) (prop_of (heap st1) retVal "then") = Some (PromiseThen p) ->
  promises st1 !! p = Some pr ->
  adapter (call user n) runFn r onRel st
  = Ok VUndefined
      (set_promises
         (<[p := mkPromise (settled pr) (reactions pr ++ [(onRel, onRel)])]> (promises st1))
         st1).
Proof.
  intros Hbody Hdef Hthen Hp. unfold adapter.
  erewrite bind_ok by exact Hbody.
  erewrite bind_ok by exact Hdef.
  cbn [truthy].
  assert (Hshape : is_deferred_shape (heap st1) retVal) by by apply isPromise_true_iff.
  destruct Hshape as (_ & Hnull & l & t & -> & _).
  erewrite bind_ok by (by apply get_prop_eval).
  destruct n as [|n]; [discriminate|].
  erewrite bind_ok.
  2:{ erewrite call_code by exact Hthen. unfold promise_then. by rewrite Hp. }
  reflexivity.
Qed.

Lemma deliver_onReleaseWait (k p r : nat) (onRel other : value) (s : settlement)
    (rs : list (value * value)) (st : state) :
  code_of (heap st) onRel = Some (OnReleaseWait r) ->
  promises st !! p = Some (mkPromise (Some s) ((onRel, onRel) :: rs)) ->
  deliver user (S k) p st
  = set_results (<[r := true]> (results st))
      (set_promises (<[p := mkPromise (Some s) rs]> (promises st)) st).
Proof.
  intros Hc Hp. unfold deliver. rewrite Hp.
  destruct s as [v | e]; by erewrite call_code by exact Hc.
Qed.

(** C2: on a step whose body returns a deferred computation the adapter
    makes one registration, of the pair (onReleaseWait, onReleaseWait):
    the success callback and the failure callback are the same function.
    Whether the computation is then fulfilled or rejected, running the
    callback sets the latch to true and changes nothing else; a rejection
    records no failure. *)
Theorem settlement_callbacks_release_latch (n r p : nat) (st st1 : state)
    (runFn onRel retVal : value) (pr : promise) :
  code_of (heap st) onRel = Some (OnReleaseWait r) ->
  call user n runFn VUndefined [] st = Ok retVal st1 ->
  isPromise retVal st1 = Ok (VBool true) st1 ->
  code_of (heap st1) (prop_of (heap st1) retVal "then") = Some (PromiseThen p) ->
  promises st1 !! p = Some pr ->
  exists st2,
    adapter (call user n) runFn r onRel st = Ok VUndefined st2 /\
    st2 = set_promises
            (<[p := mkPromise (settled pr) (reactions pr ++ [(onRel, onRel)])]>
               (promises st1)) st1 /\
    forall (stack k : nat) (evs : list event) (s : settlement)
           (rs : list (value * value)),
      promises (run user stack evs st2) !! p
      = Some (mkPromise (Some s) ((onRel, onRel) :: rs)) ->
      deliver user (S k) p (run user stack evs st2)
      = set_results (<[r := true]> (results (run user stack evs st2)))
          (set_promises (<[p := mkPromise (Some s) rs]>
                           (promises (run user stack evs st2)))
             (run user stack evs st2)).
Proof.
  intros Hc Hbody Hdef Hthen Hp.
  eexists. split; [by eapply adapter_deferred|]. split; [reflexivity|].
  intros stack k evs s rs Hps.
  apply (deliver_onReleaseWait k p r onRel onRel s rs); [|exact Hps].
  pose proof (call_grows user n runFn VUndefined [] st) as G.
  rewrite Hbody in G. simpl in G.
  apply (evolves_code _ _ (run_evolves user stack evs _)). simpl.
  by apply (evolves_code _ _ (grows_evolves _ _ G)).
Qed.

(** X19: with a [then] written by the test author, the registration shows
    as one call of it, with (onReleaseWait, onReleaseWait) as arguments and
    the deferred value as receiver. *)
Lemma adapter_user_thenable (n id : nat) (runFn onRel retVal : value) (r : nat)
    (st st1 : state) :
  call user (S n) runFn VUndefined [] st = Ok retVal st1 ->
  isPromise retVal st1 = Ok (VBool true) st1 ->
  code_of (heap st1) (prop_of (heap st1) retVal "then") = Some (UserFn id) ->
  calls (final (adapter (call user (S n)) runFn r onRel st))
  = calls st1 ++ [(id, retVal, [onRel; onRel])].
Proof.
  intros Hbody Hdef Hthen. unfold adapter.
  erewrite bind_ok by exact Hbody.
  erewrite bind_ok by exact Hdef.
  cbn [truthy].
  assert (Hshape : is_deferred_shape (heap st1) retVal) by by apply isPromise_true_iff.
  destruct Hshape as (_ & Hnull & l & t & -> & _).
  erewrite bind_ok by (by apply get_prop_eval).
  unfold bind. erewrite call_code by exact Hthen. unfold user_call.
  destruct (user id (VRef l) [onRel; onRel] (heap st1)) as [ops [v | e]]; reflexivity.
Qed.

(** A step block calls its body without arguments: a user function that
    the runner executes as a block is recorded with an empty argument
    list. *)
Lemma tick_block_user (stack id : nat) (spec func : value) (rest : list block) (st : state) :
  queue st = Block spec func :: rest ->
  code_of (heap st) func = Some (UserFn id) ->
  calls (tick user (S stack) st) = calls st ++ [(id, spec, [])].
Proof.
  intros Hq Hc. unfold tick. rewrite Hq.
  erewrite call_code by exact Hc. unfold user_call.
  destruct (user id spec [] (heap st)) as [ops [v | e]]; reflexivity.
Qed.

(** [onReleaseWait] ignores what it is called with. *)
Lemma onReleaseWait_ignores_arguments (stack r : nat) (f this this' : value)
    (args args' : list value) (st : state) :
  code_of (heap st) f = Some (OnReleaseWait r) ->
  call user (S stack) f this args st = call user (S stack) f this' args' st.
Proof. intros Hc. by rewrite !(call_code _ _ _ _ _ _ _ Hc). Qed.

End Settlement.

Lemma settlement_callbacks_release_latch_witness :
  exists st2,
    adapter (call Sample.user0 1) Sample.body 0 Sample.onReleaseWaitFn Sample.async_scheduled
    = Ok VUndefined st2 /\
    st2 = set_promises
            (<[0 := mkPromise (settled (mkPromise None []))
                     (reactions (mkPromise None [])
                        ++ [(Sample.onReleaseWaitFn, Sample.onReleaseWaitFn)])]>
               (promises
                  (final (call Sample.user0 1 Sample.body VUndefined []
                            Sample.async_scheduled))))
            (final (call Sample.user0 1 Sample.body VUndefined [] Sample.async_scheduled)) /\
    forall (stack k : nat) (evs : list event) (s : settlement) (rs : list (value * value)),
      promises (run Sample.user0 stack evs st2) !! 0
      = Some (mkPromise (Some s) ((Sample.onReleaseWaitFn, Sample.onReleaseWaitFn) :: rs)) ->
      deliver Sample.user0 (S k) 0 (run Sample.user0 stack evs st2)
      = set_results (<[0 := true]> (results (run Sample.user0 stack evs st2)))
          (set_promises (<[0 := mkPromise (Some s) rs]>
                           (promises (run Sample.user0 stack evs st2)))
             (run Sample.user0 stack evs st2)).
Proof.
  apply (settlement_callbacks_release_latch Sample.user0 1 0 0 Sample.async_scheduled
           (final (call Sample.user0 1 Sample.body VUndefined [] Sample.async_scheduled))
           Sample.body Sample.onReleaseWaitFn Sample.deferred (mkPromise None []));
    vm_compute; reflexivity.
Defined.

(** The same run with a rejection: the follow-up runs all the same and no
    failure is recorded. *)
Example rejection_completes_step :
  let st := run Sample.user0 10 Sample.rejected_with_boom Sample.st1 in
  promises st !! 0 = Some (mkPromise (Some (Rejected (VStr "boom"))) []) /\
  results st = [true] /\
  calls st = [(0, VUndefined, []); (1, Sample.spec, [])] /\
  queue st = [] /\ failures st = [].
Proof. vm_compute. repeat split. Qed.

(** C1, at the failing input: a body whose deferred computation is
    fulfilled with 5, and a follow-up.  The follow-up is called once, with
    the spec as receiver and no argument, so its parameter is undefined,
    not 5. *)
Theorem followUp_receives_no_value :
  let st := run Sample.user0 10 Sample.fulfilled_with_5 Sample.st1 in
  promises st !! 0 = Some (mkPromise (Some (Fulfilled (VNum 5))) []) /\
  calls st = [(0, VUndefined, []); (1, Sample.spec, [])] /\
  arg 0 [] = VUndefined /\
  queue st = [] /\ failures st = [].
Proof. vm_compute. repeat split. Qed.

(** * Further properties of the code *)

(** ** The search for the Jasmine module (l.55-69) *)

Lemma is_target_truthy (suffix : string) (m : nmodule) :
  is_target suffix m = true -> truthy (exports_of m) = true.
Proof. destruct m as [id e cs]. simpl. by intros [_ H]%andb_true_iff. Qed.

Lemma find_app_first {A} (f : A -> bool) (l1 l2 : list A) :
  List.find f (l1 ++ l2) =
  match List.find f l1 with Some x => Some x | None => List.find f l2 end.
Proof.
  induction l1 as [|a l1 IH]; simpl; [done|]. by destruct (f a).
Qed.

Lemma findNodeJSTarget_find (suffix : string) (m : nmodule) :
  findNodeJSTarget m suffix = first_target suffix m.
Proof.
  induction m as [id exports children IH] using nmodule_forall_ind.
  unfold first_target. simpl preorder. cbn [List.find].
  change (findNodeJSTarget (NModule id exports children) suffix)
    with (if is_target suffix (NModule id exports children)
          then exports
          else (fix loop (cs : list nmodule) : value :=
                  match cs with
                  | [] => VUndefined
                  | c :: cs' =>
                      let found := findNodeJSTarget c suffix in
                      if truthy found then found else loop cs'
                  end) children).
  destruct (is_target suffix (NModule id exports children)); [reflexivity|].
  induction children as [|c cs IHcs]; [reflexivity|].
  inversion IH as [|c' cs' Hc Hcs]; subst.
  cbn [flat_map]. rewrite find_app_first. cbv zeta.
  rewrite Hc. unfold first_target.
  destruct (List.find (is_target suffix) (preorder c)) as [m'|] eqn:E.
  - apply List.find_some in E as [_ E]. by rewrite (is_target_truthy _ _ E).
  - simpl. by apply IHcs.
Qed.

(** X1: the search returns the [exports] of the first module, in the order
    root, then subtrees left to right, that passes the test of l.57 (its id
    ends in [suffix] and its [exports] are truthy), and undefined when there
    is none.  So the result is undefined or truthy, and a module whose id
    matches but whose [exports] are falsy is passed over. *)
Theorem findNodeJSTarget_first_target (suffix : string) (m : nmodule) :
  findNodeJSTarget m suffix = first_target suffix m /\
  (findNodeJSTarget m suffix = VUndefined
   <-> forall m', In m' (preorder m) -> is_target suffix m' = false) /\
  (findNodeJSTarget m suffix <> VUndefined
   -> truthy (findNodeJSTarget m suffix) = true /\
      exists m', In m' (preorder m) /\ is_target suffix m' = true /\
                 findNodeJSTarget m suffix = exports_of m').
Proof.
  split; [apply findNodeJSTarget_find|].
  rewrite findNodeJSTarget_find. unfold first_target.
  destruct (List.find (is_target suffix) (preorder m)) as [m0|] eqn:E.
  - apply List.find_some in E as [Hin Ht].
    pose proof (is_target_truthy _ _ Ht) as Htruthy.
    split; [split|].
    + intros Hu. rewrite Hu in Htruthy. discriminate.
    + intros Hall. rewrite (Hall _ Hin) in Ht. discriminate.
    + intros _. eauto.
  - split; [|done]. split; [|done].
    intros _ m' Hin. by apply (List.find_none _ _ E).
Qed.

Lemma findNodeJSTarget_first_target_witness :
  truthy (findNodeJSTarget
            (NModule "/work/spec/runner.js" (VRef 5)
               [NModule "/opt/jasmine/lib/jasmine.js" VNull [];
                NModule "/usr/lib/node_modules/jasmine/lib/jasmine.js" (VRef 0) []])
            "jasmine/lib/jasmine.js") = true /\
  exists m',
    In m' (preorder
             (NModule "/work/spec/runner.js" (VRef 5)
                [NModule "/opt/jasmine/lib/jasmine.js" VNull [];
                 NModule "/usr/lib/node_modules/jasmine/lib/jasmine.js" (VRef 0) []])) /\
    is_target "jasmine/lib/jasmine.js" m' = true /\
    findNodeJSTarget
      (NModule "/work/spec/runner.js" (VRef 5)
         [NModule "/opt/jasmine/lib/jasmine.js" VNull [];
          NModule "/usr/lib/node_modules/jasmine/lib/jasmine.js" (VRef 0) []])
      "jasmine/lib/jasmine.js" = exports_of m'.
Proof.
  apply (findNodeJSTarget_first_target "jasmine/lib/jasmine.js"
           (NModule "/work/spec/runner.js" (VRef 5)
              [NModule "/opt/jasmine/lib/jasmine.js" VNull [];
               NModule "/usr/lib/node_modules/jasmine/lib/jasmine.js" (VRef 0) []])).
  vm_compute. discriminate.
Defined.

(** *** The suffix test of l.57 *)

Lemma string_append_cons (c : Ascii.ascii) (a b : string) :
  String c a +:+ b = String c (a +:+ b).
Proof. reflexivity. Qed.

Lemma string_append_nil (b : string) : "" +:+ b = b.
Proof. reflexivity. Qed.

Lemma string_length_append (a b : string) :
  String.length (a +:+ b) = String.length a + String.length b.
Proof.
  induction a as [|c a IH]; [done|].
  rewrite string_append_cons. simpl. by rewrite IH.
Qed.

Lemma string_append_empty_r (a : string) : a +:+ "" = a.
Proof.
  induction a as [|c a IH]; [done|]. rewrite string_append_cons. by rewrite IH.
Qed.

Lemma string_length_zero (a : string) : String.length a = 0 -> a = "".
Proof. by destruct a. Qed.

Lemma prefix_cons (c d : Ascii.ascii) (t s : string) :
  String.prefix (String c t) (String d s)
  = if Ascii.ascii_dec c d then String.prefix t s else false.
Proof. reflexivity. Qed.

Lemma prefix_split (t s : string) :
  String.prefix t s = true -> exists post, s = t +:+ post.
Proof.
  revert s. induction t as [|c t IH]; intros s H.
  - by exists s.
  - destruct s as [|d s]; [discriminate|]. rewrite prefix_cons in H.
    destruct (Ascii.ascii_dec c d) as [->|]; [|discriminate].
    destruct (IH _ H) as [post ->]. by exists post.
Qed.

Lemma prefix_refl (t : string) : String.prefix t t = true.
Proof.
  induction t as [|c t IH]; [reflexivity|]. rewrite prefix_cons.
  by destruct (Ascii.ascii_dec c c).
Qed.

Lemma index_nil_0 (t : string) :
  String.index 0 t "" = match t with "" => Some 0 | _ => None end.
Proof. reflexivity. Qed.

Lemma index_cons_0 (t : string) (b : Ascii.ascii) (s : string) :
  String.index 0 t (String b s)
  = if String.prefix t (String b s) then Some 0
    else match String.index 0 t s with Some k => Some (S k) | None => None end.
Proof. reflexivity. Qed.

Lemma index_cons_S (n : nat) (t : string) (b : Ascii.ascii) (s : string) :
  String.index (S n) t (String b s)
  = match String.index n t s with Some k => Some (S k) | None => None end.
Proof. reflexivity. Qed.

Lemma index_split (n m : nat) (t s : string) :
  String.index n t s = Some m ->
  n <= m /\ exists pre post, s = pre +:+ t +:+ post /\ String.length pre = m.
Proof.
  revert n m. induction s as [|b s IH]; intros n m H.
  - destruct n; [|discriminate]. rewrite index_nil_0 in H.
    destruct t; [|discriminate].
    injection H as <-. split; [lia|]. by exists "", "".
  - destruct n as [|n].
    + rewrite index_cons_0 in H. destruct (String.prefix t (String b s)) eqn:P.
      * injection H as <-. split; [lia|].
        destruct (prefix_split _ _ P) as [post ->]. by exists "", post.
      * destruct (String.index 0 t s) as [k|] eqn:E; [|discriminate].
        injection H as <-. destruct (IH _ _ E) as (_ & pre & post & -> & Hl).
        split; [lia|]. exists (String b pre), post.
        rewrite string_append_cons. simpl. by rewrite Hl.
    + rewrite index_cons_S in H.
      destruct (String.index n t s) as [k|] eqn:E; [|discriminate].
      injection H as <-. destruct (IH _ _ E) as (Hle & pre & post & -> & Hl).
      split; [lia|]. exists (String b pre), post.
      rewrite string_append_cons. simpl. by rewrite Hl.
Qed.

Lemma index_at_suffix (pre t : string) :
  String.index (String.length pre) t (pre +:+ t) = Some (String.length pre).
Proof.
  induction pre as [|c pre IH].
  - rewrite string_append_nil. simpl String.length.
    destruct t as [|b t]; [reflexivity|].
    rewrite index_cons_0. by rewrite prefix_refl.
  - rewrite string_append_cons. simpl String.length.
    rewrite index_cons_S. by rewrite IH.
Qed.

(** X2: the test [id.indexOf(suffix, id.length - suffix.length) !== -1] of
    l.57 holds exactly when [id] ends in [suffix]; an id shorter than the
    suffix, for which the start position is negative, never passes. *)
Theorem suffix_test_ends_with (id suffix : string) :
  indexOf_found id suffix
    (Z.of_nat (String.length id) - Z.of_nat (String.length suffix)) = true
  <-> exists pre, id = pre +:+ suffix.
Proof.
  unfold indexOf_found.
  replace (Z.to_nat (Z.of_nat (String.length id) - Z.of_nat (String.length suffix)))
    with (String.length id - String.length suffix) by lia.
  split.
  - destruct (String.index _ suffix id) as [m|] eqn:E; [|discriminate]. intros _.
    destruct (index_split _ _ _ _ E) as (Hle & pre & post & Hid & Hl).
    exists pre. rewrite Hid in Hle. rewrite !string_length_append in Hle.
    assert (post = "") as -> by (apply string_length_zero; lia).
    by rewrite string_append_empty_r in Hid.
  - intros [pre ->]. rewrite string_length_append.
    replace (String.length pre + String.length suffix - String.length suffix)
      with (String.length pre) by lia.
    by rewrite index_at_suffix.
Qed.

(** ** The entry point and the loader (l.73-115) *)

Lemma module_exports_never_silent_witness :
  (exists e, module_exports emulation_without_jasmine VNull Sample.st0
             = Throw e Sample.st0) /\
  (exists e, module_exports node_without_jasmine VUndefined Sample.st0
             = Throw e Sample.st0).
Proof.
  split.
  - apply (module_exports_never_silent emulation_without_jasmine VNull Sample.st0);
      [reflexivity | right; split; [reflexivity | left; reflexivity]].
  - apply (module_exports_never_silent node_without_jasmine VUndefined Sample.st0);
      [reflexivity | left; split; [reflexivity|]].
    intros main [= <-]. vm_compute. repeat constructor.
Defined.

Lemma strict_eq_strings (a b : string) :
  truthy (strict_eq (VStr a) (VStr b)) = String.eqb a b.
Proof.
  unfold strict_eq. simpl. destruct (String.eqb_spec a b) as [->|Hne].
  - by rewrite bool_decide_eq_true_2.
  - rewrite bool_decide_eq_false_2; [done|]. intros [=]. done.
Qed.

Lemma js_and_ret (a : value) (m : M value) (st : state) :
  js_and (ret a) m st = if truthy a then m st else Ok a st.
Proof. unfold js_and, bind, ret. by destruct (truthy a). Qed.

Lemma strict_eq_strings_false (a b : string) :
  String.eqb a b = false -> strict_eq (VStr a) (VStr b) = VBool false.
Proof.
  intros H. unfold strict_eq. rewrite bool_decide_eq_false_2; [done|].
  intros [= E]. apply String.eqb_neq in H. done.
Qed.

Lemma strict_eq_strings_true (a b : string) :
  String.eqb a b = true -> strict_eq (VStr a) (VStr b) = VBool true.
Proof.
  intros H%String.eqb_eq. subst. unfold strict_eq. by rewrite bool_decide_eq_true_2.
Qed.

Lemma load_commonjs_test (pg : page) (st : state) :
  js_and (ret (strict_eq (VStr (typeof_require pg)) (VStr "function")))
    (js_and (ret (strict_eq (VStr (typeof_exports pg)) (VStr "object")))
       (ret (strict_eq (VStr (typeof_module pg)) (VStr "object")))) st
  = Ok (VBool (is_commonjs pg)) st.
Proof.
  unfold is_commonjs. rewrite js_and_ret, strict_eq_strings.
  destruct (String.eqb (typeof_require pg) "function") eqn:E1; simpl.
  - rewrite js_and_ret, strict_eq_strings.
    destruct (String.eqb (typeof_exports pg) "object") eqn:E2; simpl.
    + unfold ret.
      destruct (String.eqb (typeof_module pg) "object") eqn:E3.
      * by rewrite strict_eq_strings_true.
      * by rewrite strict_eq_strings_false.
    + by rewrite strict_eq_strings_false.
  - by rewrite strict_eq_strings_false.
Qed.

(** What the test of l.107 evaluates to. *)
Lemma load_amd_test (pg : page) (st : state) :
  js_and (ret (strict_eq (VStr (typeof_define pg)) (VStr "function")))
    (js_and (ret (define_amd pg))
       (do jasmine <- read_jasmine (page_env pg);
        do defined <- isDefined jasmine;
        ret (js_not defined))) st
  = if has_amd_loader pg then
      match jasmine_global (page_env pg) with
      | None => Throw (ReferenceError "jasmine") st
      | Some j => Ok (VBool (bool_decide (j = VUndefined))) st
      end
    else
      Ok (if String.eqb (typeof_define pg) "function" then define_amd pg
          else VBool false) st.
Proof.
  unfold has_amd_loader. rewrite js_and_ret, strict_eq_strings.
  destruct (String.eqb (typeof_define pg) "function") eqn:E1; simpl.
  - rewrite js_and_ret.
    destruct (truthy (define_amd pg)); [|reflexivity].
    unfold read_jasmine. destruct (jasmine_global (page_env pg)) as [j|]; [|reflexivity].
    unfold bind, ret. rewrite isDefined_eval. unfold js_not. simpl.
    f_equal. f_equal. destruct (decide (j = VUndefined)) as [->|Hne].
    + by rewrite bool_decide_eq_false_2, bool_decide_eq_true_2 by auto.
    + by rewrite bool_decide_eq_true_2, bool_decide_eq_false_2 by auto.
  - by rewrite strict_eq_strings_false.
Qed.

Lemma load_eval (pg : page) (st : state) :
  load pg st =
  if is_commonjs pg then Ok Exported st
  else
    match jasmine_global (page_env pg) with
    | None => Throw (ReferenceError "jasmine") st
    | Some j =>
        if has_amd_loader pg && bool_decide (j = VUndefined) then Ok Registered st
        else plug_in j st
    end.
Proof.
  unfold load. erewrite bind_ok by apply load_commonjs_test. simpl.
  destruct (is_commonjs pg); [reflexivity|].
  unfold bind at 1. rewrite load_amd_test.
  assert (Hplug : forall j, jasmine_global (page_env pg) = Some j ->
            (do jasmine <- read_jasmine (page_env pg);
             do _ <- jasmineAsPromised jasmine; ret PluggedIn) st = plug_in j st).
  { intros j Hj. unfold read_jasmine, plug_in, bind, ret. rewrite Hj.
    by destruct (jasmineAsPromised j st). }
  destruct (has_amd_loader pg) eqn:A.
  - destruct (jasmine_global (page_env pg)) as [j|] eqn:J; [|reflexivity].
    simpl. destruct (bool_decide (j = VUndefined)); [reflexivity|]. by apply Hplug.
  - assert (truthy (if String.eqb (typeof_define pg) "function"
                    then define_amd pg else VBool false) = false) as ->.
    { unfold has_amd_loader in A.
      by destruct (String.eqb (typeof_define pg) "function"). }
    destruct (jasmine_global (page_env pg)) as [j|] eqn:J.
    + by apply Hplug.
    + unfold read_jasmine, bind. by rewrite J.
Qed.

(** X3: loading the file calls [define] in one situation only: outside
    CommonJS, with an AMD loader, and with a global binding [jasmine] that
    holds undefined.  The load then changes nothing else. *)
Theorem load_registers_iff (pg : page) (st st' : state) :
  load pg st = Ok Registered st'
  <-> st' = st /\ is_commonjs pg = false /\ has_amd_loader pg = true /\
      jasmine_global (page_env pg) = Some VUndefined.
Proof.
  rewrite load_eval. split.
  - destruct (is_commonjs pg); [discriminate|].
    destruct (jasmine_global (page_env pg)) as [j|]; [|discriminate].
    destruct (has_amd_loader pg); simpl.
    + destruct (bool_decide (j = VUndefined)) eqn:E.
      * apply bool_decide_eq_true in E as ->. by intros [= <-].
      * unfold plug_in. by destruct (jasmineAsPromised j st).
    + unfold plug_in. by destruct (jasmineAsPromised j st).
  - intros (-> & -> & -> & ->). reflexivity.
Qed.

(** X4: what loading does outside CommonJS depends on the global [jasmine]
    alone.  Without such a binding the load throws a ReferenceError, with or
    without an AMD loader; with a binding that holds a defined value it
    calls [jasmineAsPromised] on it, an AMD loader notwithstanding; with a
    binding that holds undefined and no AMD loader it does nothing and
    reports nothing.  In CommonJS the load installs nothing. *)
Theorem load_outcomes (pg : page) (st : state) :
  (is_commonjs pg = true -> load pg st = Ok Exported st) /\
  (is_commonjs pg = false ->
   (jasmine_global (page_env pg) = None ->
    load pg st = Throw (ReferenceError "jasmine") st) /\
   (forall j, jasmine_global (page_env pg) = Some j -> j <> VUndefined ->
              load pg st = plug_in j st) /\
   (jasmine_global (page_env pg) = Some VUndefined -> has_amd_loader pg = false ->
    load pg st = Ok PluggedIn st)).
Proof.
  rewrite load_eval. split; [by intros ->|]. intros ->. repeat split.
  - by intros ->.
  - intros j -> Hj. rewrite (bool_decide_eq_false_2 _ Hj). by rewrite andb_false_r.
  - intros -> ->. simpl. unfold plug_in. by rewrite jasmineAsPromised_undefined.
Qed.

Lemma load_outcomes_witness :
  load (node_page page_with_jasmine) Sample.st0 = Ok Exported Sample.st0 /\
  load (amd_page emulation_without_jasmine) Sample.st0
  = Throw (ReferenceError "jasmine") Sample.st0 /\
  load (amd_page page_with_jasmine) Sample.st0 = plug_in Sample.jasmine Sample.st0 /\
  load (script_page emulation_with_undefined_jasmine) Sample.st0
  = Ok PluggedIn Sample.st0.
Proof.
  split; [|split; [|split]].
  - apply (load_outcomes (node_page page_with_jasmine) Sample.st0). reflexivity.
  - apply (load_outcomes (amd_page emulation_without_jasmine) Sample.st0); reflexivity.
  - apply (load_outcomes (amd_page page_with_jasmine) Sample.st0);
      [reflexivity | reflexivity | discriminate].
  - apply (load_outcomes (script_page emulation_with_undefined_jasmine) Sample.st0);
      reflexivity.
Defined.

(** ** Installation, beyond idempotence (l.139-213) *)

Lemma installed_heap_frame (h : list object) (p : nat) :
  p < length h ->
  length (installed_heap h p) = length h + 2 /\
  (forall l, l < length h -> l <> p -> obj_at (installed_heap h p) l = obj_at h l) /\
  code (obj_at (installed_heap h p) p) = code (obj_at h p) /\
  (forall k, k <> "runs" ->
             props (obj_at (installed_heap h p) p) !! k = props (obj_at h p) !! k).
Proof.
  intros Hp. unfold installed_heap.
  set (I := mkObject (Some (Interceptor _ _)) (<["toString" := _]> ∅)).
  set (ext := [_; _]).
  assert (Hlen : length (<[length h := I]> (h ++ ext)) = length h + 2).
  { rewrite length_insert, length_app. reflexivity. }
  split; [by rewrite length_insert|]. split; [|split].
  - intros l Hl Hne. rewrite !obj_at_insert_ne by lia. by apply obj_at_app.
  - rewrite obj_at_insert, decide_True by (split; [done | lia]). reflexivity.
  - intros k Hk. rewrite obj_at_insert, decide_True by (split; [done | lia]).
    simpl. by rewrite lookup_insert_ne.
Qed.

(** X5: a successful installation is confined to one property of one
    object.  Every object that existed keeps its code and its properties,
    except [runs] of [jasmine.Spec.prototype]; [waitsFor] in particular is
    left as it was.  The heap grows by two objects; latches, queue, deferred
    computations, failures and user calls are not touched. *)
Theorem installation_replaces_runs_only (jasmine : value) (st : state) (p : nat) :
  duckPunchedAlready st = false ->
  prototype_of (heap st) jasmine = VRef p ->
  p < length (heap st) ->
  let st' := final (jasmineAsPromised jasmine st) in
  (forall l, l < length (heap st) -> l <> p ->
             obj_at (heap st') l = obj_at (heap st) l) /\
  code (obj_at (heap st') p) = code (obj_at (heap st) p) /\
  (forall k, k <> "runs" ->
             props (obj_at (heap st') p) !! k = props (obj_at (heap st) p) !! k) /\
  prop_of (heap st') (VRef p) "waitsFor" = prop_of (heap st) (VRef p) "waitsFor" /\
  length (heap st') = length (heap st) + 2 /\
  results st' = results st /\ queue st' = queue st /\
  promises st' = promises st /\ failures st' = failures st /\ calls st' = calls st.
Proof.
  intros Hflag Hproto Hp st'. unfold st'.
  rewrite (jasmineAsPromised_installs jasmine st p) by done. simpl.
  destruct (installed_heap_frame (heap st) p Hp) as (Hlen & Hother & Hcode & Hprops).
  repeat split; try done.
  by rewrite Hprops.
Qed.

Lemma installation_replaces_runs_only_witness :
  let st' := final (jasmineAsPromised Sample.jasmine Sample.st0) in
  (forall l, l < length (heap Sample.st0) -> l <> 2 ->
             obj_at (heap st') l = obj_at (heap Sample.st0) l) /\
  code (obj_at (heap st') 2) = code (obj_at (heap Sample.st0) 2) /\
  (forall k, k <> "runs" ->
             props (obj_at (heap st') 2) !! k = props (obj_at (heap Sample.st0) 2) !! k) /\
  prop_of (heap st') (VRef 2) "waitsFor" = prop_of (heap Sample.st0) (VRef 2) "waitsFor" /\
  length (heap st') = length (heap Sample.st0) + 2 /\
  results st' = results Sample.st0 /\ queue st' = queue Sample.st0 /\
  promises st' = promises Sample.st0 /\ failures st' = failures Sample.st0 /\
  calls st' = calls Sample.st0.
Proof.
  apply (installation_replaces_runs_only Sample.jasmine Sample.st0 2);
    [reflexivity | reflexivity | vm_compute; lia].
Defined.

Lemma spec_prototype_cases (jasmine : value) (st : state) :
  spec_prototype jasmine st =
  match jasmine with
  | VUndefined | VNull => Throw TypeError st
  | _ =>
      match prop_of (heap st) jasmine "Spec" with
      | VUndefined | VNull => Throw TypeError st
      | ctor => Ok (prop_of (heap st) ctor "prototype") st
      end
  end.
Proof.
  unfold spec_prototype, bind.
  destruct jasmine as [| | b | n | s | j]; reflexivity.
Qed.

Lemma prop_of_installing (h ext : list object) (o : object) (x : value) (k : string) :
  prop_of h x k <> VUndefined ->
  prop_of (<[length h := o]> (h ++ ext)) x k = prop_of h x k.
Proof.
  intros Hv. destruct x as [| | b | n | s | j]; try done. simpl in *.
  destruct (props (obj_at h j) !! k) as [v|] eqn:E; [|done].
  pose proof (obj_at_valid _ _ _ _ E) as Hj.
  rewrite obj_at_insert_ne by lia. rewrite obj_at_app by done. by rewrite E.
Qed.

Lemma get_prop_primitive (x : value) (k : string) (st : state) :
  is_primitive x -> get_prop x k st = Ok VUndefined st.
Proof. by destruct x. Qed.

Lemma set_prop_primitive (x : value) (k : string) (v : value) (st : state) :
  is_primitive x -> set_prop x k v st = Throw TypeError st.
Proof. by destruct x. Qed.

(** With a prototype that is a boolean, a number or a string the reads
    succeed and the final write throws. *)
Lemma jasmineAsPromised_primitive_prototype (jasmine : value) (st : state) (P : value) :
  duckPunchedAlready st = false ->
  prototype_of (heap st) jasmine = P ->
  is_primitive P ->
  exists st',
    jasmineAsPromised jasmine st = Throw TypeError st' /\
    duckPunchedAlready st' = true /\
    forall l, l < length (heap st) -> obj_at (heap st') l = obj_at (heap st) l.
Proof.
  intros Hflag Hproto Hprim.
  assert (HP : P <> VUndefined) by (by destruct P).
  assert (HS : prop_of (heap st) jasmine "Spec" <> VUndefined).
  { intros E. unfold prototype_of in Hproto. rewrite E in Hproto. by subst. }
  assert (Hj : jasmine <> VUndefined) by (by intros ->).
  assert (Hproto_eval : forall st1, heap st1 = heap st ->
            spec_prototype jasmine st1 = Ok P st1).
  { intros st1 Hh. rewrite spec_prototype_cases, Hh.
    unfold prototype_of in Hproto.
    destruct jasmine as [| | b | n | s | j]; try done.
    destruct (prop_of (heap st) (VRef j) "Spec") as [| | b | n | s | s] eqn:ES;
      try done; simpl in Hproto; subst; done. }
  eexists. split; [|split].
  - unfold jasmineAsPromised.
    erewrite bind_ok by reflexivity. rewrite Hflag.
    erewrite bind_ok by apply isDefined_eval.
    rewrite bool_decide_eq_true_2 by done. simpl.
    erewrite bind_ok by reflexivity.
    erewrite bind_ok by (by apply Hproto_eval).
    erewrite bind_ok by (by apply get_prop_primitive).
    erewrite bind_ok by (by apply Hproto_eval).
    erewrite bind_ok by (by apply get_prop_primitive).
    unfold new_function at 1. unfold bind at 1. cbn [heap set_heap set_duckPunchedAlready].
    unfold new_function at 1. unfold bind at 1. cbn [heap set_heap set_duckPunchedAlready].
    unfold set_prop at 1. unfold bind at 1. cbn [heap set_heap set_duckPunchedAlready].
    rewrite <- app_assoc.
    erewrite bind_ok.
    2:{ rewrite spec_prototype_cases. cbn [heap set_heap].
        unfold prototype_of in Hproto.
        rewrite (prop_of_installing _ _ _ jasmine "Spec") by done.
        destruct jasmine as [| | b | n | s | j]; try done.
        destruct (prop_of (heap st) (VRef j) "Spec") as [| | b | n | s | s] eqn:ES;
          try done; try (simpl in Hproto; subst; done).
        rewrite prop_of_installing by (by rewrite Hproto).
        by rewrite Hproto. }
    apply bind_throw. by apply set_prop_primitive.
  - reflexivity.
  - intros l Hl. cbn [heap set_heap]. rewrite obj_at_insert_ne by lia.
    by apply obj_at_app.
Qed.

Lemma jasmineAsPromised_throws_early (jasmine : value) (st st1 : state) (e : exn) :
  duckPunchedAlready st = false ->
  jasmine <> VUndefined ->
  spec_prototype jasmine (set_duckPunchedAlready true st) = Throw e st1 ->
  jasmineAsPromised jasmine st = Throw e st1.
Proof.
  intros Hflag Hdef H. unfold jasmineAsPromised.
  erewrite bind_ok by reflexivity. rewrite Hflag.
  erewrite bind_ok by apply isDefined_eval.
  rewrite bool_decide_eq_true_2 by done. simpl.
  erewrite bind_ok by reflexivity.
  by apply bind_throw.
Qed.

Lemma jasmineAsPromised_throws_at_runs (jasmine P : value) (st st1 st2 : state) (e : exn) :
  duckPunchedAlready st = false ->
  jasmine <> VUndefined ->
  spec_prototype jasmine (set_duckPunchedAlready true st) = Ok P st1 ->
  get_prop P "runs" st1 = Throw e st2 ->
  jasmineAsPromised jasmine st = Throw e st2.
Proof.
  intros Hflag Hdef H Hruns. unfold jasmineAsPromised.
  erewrite bind_ok by reflexivity. rewrite Hflag.
  erewrite bind_ok by apply isDefined_eval.
  rewrite bool_decide_eq_true_2 by done. simpl.
  erewrite bind_ok by reflexivity.
  erewrite bind_ok by exact H.
  by apply bind_throw.
Qed.

(** X6: installation does not return normally unless
    [jasmine.Spec.prototype] is an object.  For every defined handle on
    which that expression is not an object (null, a primitive, an object
    without [Spec], a [Spec] without [prototype], a primitive prototype) the
    activation throws a TypeError, has set the installed flag, and has
    changed no object that existed. *)
Theorem installation_needs_prototype (jasmine : value) (st : state) :
  duckPunchedAlready st = false ->
  jasmine <> VUndefined ->
  (forall p, prototype_of (heap st) jasmine <> VRef p) ->
  exists st',
    jasmineAsPromised jasmine st = Throw TypeError st' /\
    duckPunchedAlready st' = true /\
    forall l, l < length (heap st) -> obj_at (heap st') l = obj_at (heap st) l.
Proof.
  intros Hflag Hdef Hnot.
  assert (Hearly : spec_prototype jasmine (set_duckPunchedAlready true st)
                   = Throw TypeError (set_duckPunchedAlready true st) ->
          exists st',
            jasmineAsPromised jasmine st = Throw TypeError st' /\
            duckPunchedAlready st' = true /\
            forall l, l < length (heap st) -> obj_at (heap st') l = obj_at (heap st) l).
  { intros H. exists (set_duckPunchedAlready true st).
    split; [by apply jasmineAsPromised_throws_early | by split]. }
  assert (Hruns : forall P,
            spec_prototype jasmine (set_duckPunchedAlready true st)
            = Ok P (set_duckPunchedAlready true st) ->
            P = VUndefined \/ P = VNull ->
            exists st',
              jasmineAsPromised jasmine st = Throw TypeError st' /\
              duckPunchedAlready st' = true /\
              forall l, l < length (heap st) -> obj_at (heap st') l = obj_at (heap st) l).
  { intros P H HP. exists (set_duckPunchedAlready true st).
    split; [|by split].
    eapply jasmineAsPromised_throws_at_runs; try done.
    by destruct HP as [-> | ->]. }
  destruct jasmine as [| | b | n | s | j]; try done;
    try (apply Hearly; reflexivity).
  destruct (prop_of (heap st) (VRef j) "Spec") as [| | b | n | s | c] eqn:ES;
    try (apply Hearly; rewrite spec_prototype_cases;
         cbn [heap set_duckPunchedAlready]; by rewrite ES);
    try (apply (Hruns VUndefined); [|by left]; rewrite spec_prototype_cases;
         cbn [heap set_duckPunchedAlready]; by rewrite ES).
  destruct (prop_of (heap st) (VRef c) "prototype") as [| | b | n | s | p] eqn:EP.
  - apply (Hruns VUndefined); [|by left]. rewrite spec_prototype_cases.
    cbn [heap set_duckPunchedAlready]. by rewrite ES, EP.
  - apply (Hruns VNull); [|by right]. rewrite spec_prototype_cases.
    cbn [heap set_duckPunchedAlready]. by rewrite ES, EP.
  - apply (jasmineAsPromised_primitive_prototype _ _ (VBool b)); try done.
    unfold prototype_of. by rewrite ES, EP.
  - apply (jasmineAsPromised_primitive_prototype _ _ (VNum n)); try done.
    unfold prototype_of. by rewrite ES, EP.
  - apply (jasmineAsPromised_primitive_prototype _ _ (VStr s)); try done.
    unfold prototype_of. by rewrite ES, EP.
  - destruct (Hnot p). unfold prototype_of. by rewrite ES, EP.
Qed.

Lemma installation_needs_prototype_witness :
  (exists st',
      jasmineAsPromised Sample3.noPrototype Sample3.st0 = Throw TypeError st' /\
      duckPunchedAlready st' = true /\
      forall l, l < length (heap Sample3.st0) ->
                obj_at (heap st') l = obj_at (heap Sample3.st0) l) /\
  (exists st',
      jasmineAsPromised Sample3.primitivePrototype Sample3.st0 = Throw TypeError st' /\
      duckPunchedAlready st' = true /\
      forall l, l < length (heap Sample3.st0) ->
                obj_at (heap st') l = obj_at (heap Sample3.st0) l).
Proof.
  split.
  - apply (installation_needs_prototype Sample3.noPrototype Sample3.st0);
      [reflexivity | discriminate | intros p; vm_compute; discriminate].
  - apply (installation_needs_prototype Sample3.primitivePrototype Sample3.st0);
      [reflexivity | discriminate | intros p; vm_compute; discriminate].
Defined.

(** ** Installation and the interceptor together *)

Section Installed.

Variable user : user_semantics.

Lemma installed_state (jasmine : value) (st : state) (p : nat) :
  duckPunchedAlready st = false ->
  prototype_of (heap st) jasmine = VRef p ->
  p < length (heap st) ->
  let st' := final (jasmineAsPromised jasmine st) in
  st' = set_heap (installed_heap (heap st) p) (set_duckPunchedAlready true st) /\
  prop_of (heap st') (prototype_of (heap st') jasmine) "runs" = VRef (length (heap st)) /\
  code_of (heap st') (VRef (length (heap st)))
  = Some (Interceptor (prop_of (heap st) (VRef p) "runs")
                      (prop_of (heap st) (VRef p) "waitsFor")) /\
  evolves st st'.
Proof.
  intros Hflag Hproto Hp st'.
  assert (E : st' = set_heap (installed_heap (heap st) p) (set_duckPunchedAlready true st)).
  { unfold st'. by rewrite (jasmineAsPromised_installs jasmine st p). }
  destruct (installed_heap_spec (heap st) jasmine p Hproto Hp) as (H1 & H2 & H3).
  split; [exact E|]. rewrite E. cbn [heap set_heap]. rewrite H1.
  split; [exact H2|]. split; [exact H3|].
  rewrite <- E. apply jasmineAsPromised_evolves.
Qed.

(** X7: after installation on a host, a call of
    [jasmine.Spec.prototype.runs] with a body, an optional follow-up and an
    optional timeout returns undefined and leaves exactly this behind: one
    new latch, false; the three closures of the activation; and at the end
    of the queue the step, the poll with the timeout, and the follow-up when
    one was given. *)
Theorem installed_runs_schedules (stack p : nat) (jasmine this : value)
    (args : list value) (st : state) :
  duckPunchedAlready st = false ->
  prototype_of (heap st) jasmine = VRef p ->
  p < length (heap st) ->
  code_of (heap st) (prop_of (heap st) (VRef p) "runs") = Some HostRuns ->
  code_of (heap st) (prop_of (heap st) (VRef p) "waitsFor") = Some HostWaitsFor ->
  let st' := final (jasmineAsPromised jasmine st) in
  call user (S (S stack))
    (prop_of (heap st') (prototype_of (heap st') jasmine) "runs") this args st'
  = Ok VUndefined (scheduled st' this (arg 0 args) (arg 1 args) (arg 2 args)).
Proof.
  intros Hflag Hproto Hp Hruns Hwaits st'.
  destruct (installed_state jasmine st p Hflag Hproto Hp) as (_ & Hslot & Hcode & Hev).
  fold st' in Hslot, Hcode, Hev. rewrite Hslot.
  erewrite call_code by exact Hcode. cbv iota.
  apply interceptor_host; by apply (evolves_code _ _ Hev).
Qed.

(** X8: installation does not check what it wraps.  On a framework whose
    prototype has no [runs] it succeeds all the same, and a call of the
    installed [runs] made then, on any receiver and with any arguments,
    throws a TypeError when it reaches the call of the captured [runs]
    (l.167): nothing is queued, no failure is recorded and no user function
    is called. *)
Theorem installed_on_bare_host (stack p : nat) (jasmine this : value)
    (args : list value) (st : state) :
  duckPunchedAlready st = false ->
  prototype_of (heap st) jasmine = VRef p ->
  p < length (heap st) ->
  prop_of (heap st) (VRef p) "runs" = VUndefined ->
  let st' := final (jasmineAsPromised jasmine st) in
  jasmineAsPromised jasmine st = Ok VUndefined st' /\
  exists st'',
    call user (S (S stack))
      (prop_of (heap st') (prototype_of (heap st') jasmine) "runs") this args st'
    = Throw TypeError st'' /\
    queue st'' = queue st' /\ calls st'' = calls st' /\ failures st'' = failures st'.
Proof.
  intros Hflag Hproto Hp Hruns st'.
  destruct (installed_state jasmine st p Hflag Hproto Hp) as (E & Hslot & Hcode & Hev).
  fold st' in E, Hslot, Hcode, Hev.
  split. { rewrite E. by apply jasmineAsPromised_installs. }
  rewrite Hslot. eexists. split.
  - erewrite call_code by exact Hcode. cbv iota. rewrite Hruns.
    unfold interceptor.
    erewrite bind_ok by reflexivity.
    erewrite bind_ok by reflexivity.
    erewrite bind_ok by reflexivity.
    apply bind_throw. reflexivity.
  - by repeat split.
Qed.

End Installed.

Lemma installed_runs_schedules_witness :
  let st' := final (jasmineAsPromised Sample.jasmine Sample.st0) in
  call Sample.user0 2
    (prop_of (heap st') (prototype_of (heap st') Sample.jasmine) "runs")
    Sample.spec [Sample.body; Sample.followUp] st'
  = Ok VUndefined
      (scheduled st' Sample.spec (arg 0 [Sample.body; Sample.followUp])
         (arg 1 [Sample.body; Sample.followUp]) (arg 2 [Sample.body; Sample.followUp])).
Proof.
  apply (installed_runs_schedules Sample.user0 0 2 Sample.jasmine Sample.spec
           [Sample.body; Sample.followUp] Sample.st0);
    [reflexivity | reflexivity | vm_compute; lia | reflexivity | reflexivity].
Defined.

Lemma installed_on_bare_host_witness :
  let st' := final (jasmineAsPromised Sample3.bareHost Sample3.st0) in
  jasmineAsPromised Sample3.bareHost Sample3.st0 = Ok VUndefined st' /\
  exists st'',
    call Sample.user0 2
      (prop_of (heap st') (prototype_of (heap st') Sample3.bareHost) "runs")
      Sample3.spec [Sample.body] st'
    = Throw TypeError st'' /\
    queue st'' = queue st' /\ calls st'' = calls st' /\ failures st'' = failures st'.
Proof.
  apply (installed_on_bare_host Sample.user0 0 6 Sample3.bareHost Sample3.spec
           [Sample.body] Sample3.st0);
    [reflexivity | reflexivity | vm_compute; lia | reflexivity].
Defined.

(** ** The calls the interceptor makes (l.155-198) *)

Section Protocol.

Variable user : user_semantics.

Lemma user_call_returns (id : nat) (this : value) (args : list value) (st : state) :
  always_returns user id ->
  exists v st',
    user_call user id this args st = Ok v st' /\
    calls st' = calls st ++ [(id, this, args)] /\
    (forall f c, code_of (heap st) f = Some c -> code_of (heap st') f = Some c) /\
    results st' = results st.
Proof.
  intros H. destruct (H this args (heap st)) as (ops & v & E).
  unfold user_call. rewrite E. do 2 eexists. split; [reflexivity|].
  split; [reflexivity|]. split; [|reflexivity].
  intros f c. apply code_of_apply_ops.
Qed.


(** X9: whatever functions [runs] and [waitsFor] are, the interceptor calls
    them in this order and no other: [runs] with the step adapter,
    [waitsFor] with the latch check and the timeout as received, and, when a
    follow-up was given, [runs] with the follow-up itself; each with the
    receiver the interceptor was called on. *)
Theorem interceptor_call_protocol (stack a b : nat)
    (runs waitsFor this runFn expectFn timeOut : value) (st : state) :
  code_of (heap st) runs = Some (UserFn a) ->
  code_of (heap st) waitsFor = Some (UserFn b) ->
  always_returns user a ->
  always_returns user b ->
  exists st' step latch onRel,
    interceptor (call user (S stack)) runs waitsFor this runFn expectFn timeOut st
    = Ok VUndefined st' /\
    calls st' = calls st ++ (a, this, [step]) :: (b, this, [latch; timeOut])
                  :: (if bool_decide (expectFn <> VUndefined)
                      then [(a, this, [expectFn])] else []) /\
    code_of (heap st') step = Some (Adapter runFn (length (results st)) onRel) /\
    code_of (heap st') onRel = Some (OnReleaseWait (length (results st))) /\
    code_of (heap st') latch = Some (LatchCheck (length (results st))) /\
    results st' = results st ++ [false].
Proof.
  intros Hruns Hwaits Ha Hb. unfold interceptor.
  erewrite bind_ok by reflexivity.
  erewrite bind_ok by reflexivity.
  erewrite bind_ok by reflexivity.
  set (st3 := set_heap _ (set_heap _ (set_results _ st))).
  set (onRel := VRef (length (heap (set_results (results st ++ [false]) st)))).
  set (step := VRef (length (heap (set_heap _ (set_results _ st))))).
  assert (Hruns3 : code_of (heap st3) runs = Some (UserFn a)).
  { unfold st3. cbn [heap set_heap set_results]. by do 2 apply code_of_app. }
  assert (Hwaits3 : code_of (heap st3) waitsFor = Some (UserFn b)).
  { unfold st3. cbn [heap set_heap set_results]. by do 2 apply code_of_app. }
  assert (Hstep3 : code_of (heap st3) step
                   = Some (Adapter runFn (length (results st)) onRel)).
  { unfold st3, step. cbn [heap set_heap set_results code_of].
    by rewrite obj_at_app_here. }
  assert (HonRel3 : code_of (heap st3) onRel = Some (OnReleaseWait (length (results st)))).
  { unfold st3, onRel. cbn [heap set_heap set_results code_of].
    rewrite obj_at_app by (rewrite length_app; simpl; lia).
    by rewrite obj_at_app_here. }
  destruct (user_call_returns a this [step] st3 Ha) as (v1 & st4 & E1 & C1 & K1 & R1).
  erewrite bind_ok by (erewrite call_code by exact Hruns3; exact E1).
  erewrite bind_ok by reflexivity.
  set (st5 := set_heap _ st4).
  set (latch := VRef (length (heap st4))).
  assert (K5 : forall f c, code_of (heap st3) f = Some c -> code_of (heap st5) f = Some c).
  { intros f c Hc. unfold st5. cbn [heap set_heap]. by apply code_of_app, K1. }
  assert (Hlatch5 : code_of (heap st5) latch = Some (LatchCheck (length (results st)))).
  { unfold st5, latch. cbn [heap set_heap code_of]. by rewrite obj_at_app_here. }
  destruct (user_call_returns b this [latch; timeOut] st5 Hb)
    as (v2 & st6 & E2 & C2 & K2 & R2).
  erewrite bind_ok by (erewrite call_code by (apply K5; exact Hwaits3); exact E2).
  erewrite bind_ok by apply isDefined_eval.
  cbn [truthy]. destruct (bool_decide (expectFn <> VUndefined)).
  - destruct (user_call_returns a this [expectFn] st6 Ha)
      as (v3 & st7 & E3 & C3 & K3 & R3).
    erewrite bind_ok
      by (erewrite call_code by (apply K2, K5; exact Hruns3); exact E3).
    exists st7, step, latch, onRel. split; [reflexivity|].
    split. { rewrite C3, C2. unfold st5. cbn [calls set_heap]. rewrite C1.
             unfold st3. cbn [calls set_heap set_results].
             by rewrite <- !app_assoc. }
    split; [by apply K3, K2, K5|]. split; [by apply K3, K2, K5|].
    split; [by apply K3, K2|].
    rewrite R3, R2. unfold st5. cbn [results set_heap]. rewrite R1. reflexivity.
  - exists st6, step, latch, onRel. split; [reflexivity|].
    split. { rewrite C2. unfold st5. cbn [calls set_heap]. rewrite C1.
             unfold st3. cbn [calls set_heap set_results].
             by rewrite <- !app_assoc. }
    split; [by apply K2, K5|]. split; [by apply K2, K5|].
    split; [by apply K2|].
    rewrite R2. unfold st5. cbn [results set_heap]. rewrite R1. reflexivity.
Qed.


(** X11: the settlement callback can be called any number of times, on any
    receiver and with any arguments: after the first call a further call
    changes nothing. *)
Theorem release_is_idempotent (stack r : nat) (f this this' : value)
    (args args' : list value) (st : state) :
  code_of (heap st) f = Some (OnReleaseWait r) ->
  let st1 := final (call user (S stack) f this args st) in
  call user (S stack) f this args st = Ok (VBool true) st1 /\
  call user (S stack) f this' args' st1 = Ok (VBool true) st1.
Proof.
  intros Hc st1. unfold st1.
  rewrite (call_code user stack f this args st _ Hc). cbv iota.
  split; [reflexivity|].
  erewrite call_code by exact Hc. cbv iota.
  unfold onReleaseWait. cbn [final results set_results].
  f_equal. unfold set_results. cbn. f_equal.
  by rewrite list_insert_insert_eq.
Qed.

End Protocol.

Lemma interceptor_call_protocol_witness :
  exists st' step latch onRel,
    interceptor (call Sample2.user0 1) Sample2.userRuns Sample2.userWaitsFor
      Sample.spec Sample.body Sample.followUp (VNum 250) Sample2.st0
    = Ok VUndefined st' /\
    calls st' = calls Sample2.st0
                  ++ (7, Sample.spec, [step]) :: (8, Sample.spec, [latch; VNum 250])
                  :: (if bool_decide (Sample.followUp <> VUndefined)
                      then [(7, Sample.spec, [Sample.followUp])] else []) /\
    code_of (heap st') step
    = Some (Adapter Sample.body (length (results Sample2.st0)) onRel) /\
    code_of (heap st') onRel = Some (OnReleaseWait (length (results Sample2.st0))) /\
    code_of (heap st') latch = Some (LatchCheck (length (results Sample2.st0))) /\
    results st' = results Sample2.st0 ++ [false].
Proof.
  apply (interceptor_call_protocol Sample2.user0 0 7 8 Sample2.userRuns
           Sample2.userWaitsFor Sample.spec Sample.body Sample.followUp (VNum 250)
           Sample2.st0);
    [reflexivity | reflexivity
    | intros this args h; do 2 eexists; reflexivity
    | intros this args h; do 2 eexists; reflexivity].
Defined.


Lemma release_is_idempotent_witness :
  let st1 := final (call Sample.user0 1 Sample.onReleaseWaitFn VUndefined [VNum 5]
                      Sample.sync_scheduled) in
  call Sample.user0 1 Sample.onReleaseWaitFn VUndefined [VNum 5] Sample.sync_scheduled
  = Ok (VBool true) st1 /\
  call Sample.user0 1 Sample.onReleaseWaitFn Sample.spec [VStr "boom"; VNull] st1
  = Ok (VBool true) st1.
Proof.
  apply (release_is_idempotent Sample.user0 0 0 Sample.onReleaseWaitFn VUndefined
           Sample.spec [VNum 5] [VStr "boom"; VNull] Sample.sync_scheduled).
  vm_compute. reflexivity.
Defined.

(** ** Polling without a delivery *)

Section Waiting.

Variable user : user_semantics.

Lemma latchCheck_false (stack r : nat) (latch this : value) (st : state) :
  code_of (heap st) latch = Some (LatchCheck r) ->
  results st !! r = Some false ->
  call user (S stack) latch this [] st = Ok (VBool false) st.
Proof.
  intros Hc Hr. erewrite call_code by exact Hc. unfold latchCheck. by rewrite Hr.
Qed.

Lemma quiet_exec (stack r : nat) (ev : event) (st : state) :
  quiet ev = true -> waiting st r ->
  waiting (exec user (S stack) ev st) r /\
  calls (exec user (S stack) ev st) = calls st.
Proof.
  intros Hq [Hr Hqueue]. destruct ev as [f this args | j | | p s | p]; try discriminate.
  - simpl. unfold tick.
    destruct Hqueue as [E | (spec & latch & timeout & waited & rest & E & Hc)];
      rewrite E.
    { split; [split; [done | by left] | done]. }
    rewrite (latchCheck_false stack r latch spec st Hc Hr). cbn [truthy].
    destruct (effective_timeout timeout <=? waited)%Z.
    + split; [split; [done | by left] | done].
    + split; [|done]. split; [done|]. right.
      exists spec, latch, timeout, (waited + TIMEOUT_INCREMENT)%Z, rest.
      split; [|done]. simpl. by rewrite E.
  - simpl. unfold settle.
    destruct (promises st !! p) as [[[s'|] rs]|]; done.
Qed.

Lemma quiet_run (stack r : nat) (evs : list event) (st : state) :
  Forall (fun ev => quiet ev = true) evs -> waiting st r ->
  waiting (run user (S stack) evs st) r /\
  calls (run user (S stack) evs st) = calls st.
Proof.
  intros Hq. revert st. induction Hq as [|ev evs Hev _ IH]; intros st Hw; [done|].
  destruct (quiet_exec stack r ev st Hev Hw) as [Hw1 Hc1].
  destruct (IH _ Hw1) as [Hw2 Hc2].
  unfold run in *. simpl. split; [done | congruence].
Qed.

(** X12: settlement alone does not release the latch, and the runner alone
    does not either.  Once the step has run and registered on a deferred
    computation, then as long as nothing is delivered, whatever the runner
    turns and the settlements, the latch stays false, the runner is still at
    the poll (or has given it up), and no user function, the follow-up
    included, is called. *)
Theorem deferred_step_waits (n r p : nat) (st st1 : state)
    (spec step latch timeout runFn onRel retVal : value) (waited : Z)
    (rest : list block) (pr : promise) (evs : list event) :
  queue st = Block spec step :: WaitsForBlock spec latch timeout waited :: rest ->
  code_of (heap st) step = Some (Adapter runFn r onRel) ->
  code_of (heap st) latch = Some (LatchCheck r) ->
  call user n runFn VUndefined [] st = Ok retVal st1 ->
  isPromise retVal st1 = Ok (VBool true) st1 ->
  code_of (heap st1) (prop_of (heap st1) retVal "then") = Some (PromiseThen p) ->
  promises st1 !! p = Some pr ->
  results st1 !! r = Some false ->
  Forall (fun ev => quiet ev = true) evs ->
  let st' := run user (S n) (Tick :: evs) st in
  waiting st' r /\ calls st' = calls st1.
Proof.
  intros Hq Hstep Hlatch Hbody Hdef Hthen Hp Hr Hquiet st'.
  pose proof (call_grows user n runFn VUndefined [] st) as G.
  rewrite Hbody in G. simpl in G.
  destruct G as [[_ _ _ Hcode] _ _ [extra Hextra]].
  set (st2 := tick user (S n) st).
  assert (Hst2 : st2 = drop_head
                   (set_promises
                      (<[p := mkPromise (settled pr) (reactions pr ++ [(onRel, onRel)])]>
                         (promises st1)) st1)).
  { unfold st2, tick. rewrite Hq.
    erewrite call_code by exact Hstep. cbv iota.
    by erewrite adapter_deferred. }
  assert (Hw : waiting st2 r).
  { rewrite Hst2. split; [exact Hr|].
    right. exists spec, latch, timeout, waited, (rest ++ extra).
    split; [|by apply Hcode]. simpl. by rewrite Hextra, Hq. }
  destruct (quiet_run n r evs st2 Hquiet Hw) as [Hw' Hc'].
  change st' with (run user (S n) evs st2).
  split; [exact Hw'|]. rewrite Hc', Hst2. reflexivity.
Qed.

(** X13: a body that is a function and throws fails its step and leaves the
    latch false: the adapter has no handler, so the host records the throw,
    and the poll that follows cannot pass.  Whatever the runner turns and
    settlements after it, the latch stays false and no further user
    function, the follow-up included, is called.  The body is a function
    object without a [call] property of its own, so that [runFn.call()] of
    l.169 is the call of the body. *)
Theorem throwing_step_stalls (n r : nat) (st st1 : state)
    (spec step latch timeout runFn onRel : value) (waited : Z)
    (rest : list block) (e : exn) (evs : list event) :
  queue st = Block spec step :: WaitsForBlock spec latch timeout waited :: rest ->
  code_of (heap st) step = Some (Adapter runFn r onRel) ->
  code_of (heap st) latch = Some (LatchCheck r) ->
  is_Some (code_of (heap st) runFn) ->
  prop_of (heap st) runFn "call" = VUndefined ->
  call user n runFn VUndefined [] st = Throw e st1 ->
  results st1 !! r = Some false ->
  Forall (fun ev => quiet ev = true) evs ->
  failures (tick user (S n) st) = failures st ++ [StepThrew e] /\
  let st' := run user (S n) (Tick :: evs) st in
  waiting st' r /\ calls st' = calls st1.
Proof.
  intros Hq Hstep Hlatch _ _ Hbody Hr Hquiet.
  pose proof (call_grows user n runFn VUndefined [] st) as G.
  rewrite Hbody in G. simpl in G.
  destruct G as [[_ _ _ Hcode] _ Hfail [extra Hextra]].
  set (st2 := tick user (S n) st).
  assert (Hst2 : st2 = drop_head (fail (StepThrew e) st1)).
  { unfold st2, tick. rewrite Hq.
    erewrite call_code by exact Hstep. cbv iota.
    unfold adapter. by erewrite bind_throw by exact Hbody. }
  split. { rewrite Hst2. simpl. by rewrite Hfail. }
  intros st'.
  assert (Hw : waiting st2 r).
  { rewrite Hst2. split; [exact Hr|].
    right. exists spec, latch, timeout, waited, (rest ++ extra).
    split; [|by apply Hcode]. simpl. by rewrite Hextra, Hq. }
  destruct (quiet_run n r evs st2 Hquiet Hw) as [Hw' Hc'].
  change st' with (run user (S n) evs st2).
  split; [exact Hw'|]. rewrite Hc', Hst2. reflexivity.
Qed.

End Waiting.

Lemma deferred_step_waits_witness :
  let st' := run Sample.user0 2
               (Tick :: [Tick; Settle 0 (Fulfilled (VNum 5)); Tick; Tick])
               Sample.async_scheduled in
  waiting st' 0 /\
  calls st' = calls (final (call Sample.user0 1 Sample.body VUndefined []
                              Sample.async_scheduled)).
Proof.
  apply (deferred_step_waits Sample.user0 1 0 0 Sample.async_scheduled
           (final (call Sample.user0 1 Sample.body VUndefined [] Sample.async_scheduled))
           Sample.spec Sample.step Sample.latch VUndefined Sample.body
           Sample.onReleaseWaitFn Sample.deferred 0
           [Block Sample.spec Sample.followUp] (mkPromise None [])
           [Tick; Settle 0 (Fulfilled (VNum 5)); Tick; Tick]);
    try (vm_compute; reflexivity).
  repeat constructor.
Defined.

Lemma throwing_step_stalls_witness :
  failures (tick Sample2.user0 2 Sample2.throwing_scheduled)
  = failures Sample2.throwing_scheduled ++ [StepThrew (Thrown (VStr "boom"))] /\
  let st' := run Sample2.user0 2 (Tick :: [Tick; Tick]) Sample2.throwing_scheduled in
  waiting st' 0 /\
  calls st' = calls (final (call Sample2.user0 1 Sample2.throwingBody VUndefined []
                              Sample2.throwing_scheduled)).
Proof.
  apply (throwing_step_stalls Sample2.user0 1 0 Sample2.throwing_scheduled
           (final (call Sample2.user0 1 Sample2.throwingBody VUndefined []
                     Sample2.throwing_scheduled))
           Sample.spec Sample2.step Sample2.latch VUndefined Sample2.throwingBody
           Sample2.onReleaseWaitFn 0 [Block Sample.spec Sample.followUp]
           (Thrown (VStr "boom")) [Tick; Tick]);
    try (vm_compute; reflexivity).
  - vm_compute. eexists. reflexivity.
  - repeat constructor.
Defined.

(** ** The wrapper's [toString] (l.203-206) *)

Section ToString.

Variable user : user_semantics.

Lemma installed_heap_toString (h : list object) (p : nat) :
  p < length h ->
  prop_of (installed_heap h p) (VRef (length h)) "toString" = VRef (S (length h)) /\
  code_of (installed_heap h p) (VRef (S (length h)))
  = Some (InterceptorToString (prop_of h (VRef p) "runs")).
Proof.
  intros Hp. unfold installed_heap. split.
  - simpl. rewrite obj_at_insert_ne by lia.
    rewrite obj_at_insert, decide_True.
    + simpl. by rewrite lookup_insert_eq.
    + split; [done|]. rewrite length_app. simpl. lia.
  - simpl. rewrite !obj_at_insert_ne by lia.
    unfold obj_at. rewrite lookup_app_r by lia.
    by replace (S (length h) - length h) with 1 by lia.
Qed.

(** X14: the installed wrapper prints as the function it wraps.  After
    installation, [jasmine.Spec.prototype.runs.toString()] is the original
    [runs.toString()]: the original's [toString] called on the original,
    whatever receiver and arguments the wrapper's was given. *)
Theorem installed_toString_delegates (stack p : nat) (jasmine this : value)
    (args : list value) (st : state) :
  duckPunchedAlready st = false ->
  prototype_of (heap st) jasmine = VRef p ->
  p < length (heap st) ->
  prop_of (heap st) (VRef p) "runs" <> VUndefined ->
  prop_of (heap st) (VRef p) "runs" <> VNull ->
  let original := prop_of (heap st) (VRef p) "runs" in
  let st' := final (jasmineAsPromised jasmine st) in
  let wrapper := prop_of (heap st') (prototype_of (heap st') jasmine) "runs" in
  call user (S (S stack)) (prop_of (heap st') wrapper "toString") this args st'
  = call user (S stack) (prop_of (heap st') original "toString") original [] st'.
Proof.
  intros Hflag Hproto Hp Hu Hn original st' wrapper.
  destruct (installed_state jasmine st p Hflag Hproto Hp) as (E & Hslot & Hcode & Hev).
  fold st' in E, Hslot, Hcode, Hev. fold wrapper in Hslot.
  destruct (installed_heap_toString (heap st) p Hp) as [Hts Hcts].
  assert (Hh : heap st' = installed_heap (heap st) p) by (by rewrite E).
  rewrite Hslot, Hh, Hts.
  erewrite call_code by (rewrite Hh; exact Hcts). cbv iota.
  unfold interceptor_toString. fold original.
  erewrite bind_ok by (by apply get_prop_eval).
  by rewrite Hh.
Qed.

End ToString.

Lemma installed_toString_delegates_witness :
  let original := prop_of (heap Sample2.st0) (VRef 21) "runs" in
  let st' := final (jasmineAsPromised Sample2.jasmine Sample2.st0) in
  let wrapper := prop_of (heap st') (prototype_of (heap st') Sample2.jasmine) "runs" in
  call Sample2.user0 2 (prop_of (heap st') wrapper "toString") wrapper [] st'
  = call Sample2.user0 1 (prop_of (heap st') original "toString") original [] st'.
Proof.
  apply (installed_toString_delegates Sample2.user0 0 21 Sample2.jasmine
           (prop_of (heap (final (jasmineAsPromised Sample2.jasmine Sample2.st0)))
              (prototype_of (heap (final (jasmineAsPromised Sample2.jasmine Sample2.st0)))
                 Sample2.jasmine) "runs")
           [] Sample2.st0);
    [reflexivity | reflexivity | vm_compute; lia | discriminate | discriminate].
Defined.

Example installed_toString_prints_original :
  let st' := final (jasmineAsPromised Sample2.jasmine Sample2.st0) in
  let wrapper := prop_of (heap st') (prototype_of (heap st') Sample2.jasmine) "runs" in
  exists st'',
    call Sample2.user0 2 (prop_of (heap st') wrapper "toString") wrapper [] st'
    = Ok (VStr "function (func) { ... }") st''.
Proof. eexists. vm_compute. reflexivity. Qed.

(** ** Follow-ups and latches of several activations *)

Section Activations.

Variable user : user_semantics.

(** X15: [null] is not undefined, so with [null] as follow-up the
    interceptor queues a third block all the same, and the step fails with
    a TypeError when the runner reaches it. *)
Theorem null_followUp_is_scheduled (stack : nat)
    (runs waitsFor this runFn timeOut : value) (st : state) :
  code_of (heap st) runs = Some HostRuns ->
  code_of (heap st) waitsFor = Some HostWaitsFor ->
  exists st' step latch,
    interceptor (call user (S stack)) runs waitsFor this runFn VNull timeOut st
    = Ok VUndefined st' /\
    queue st' = queue st ++ [Block this step; WaitsForBlock this latch timeOut 0;
                             Block this VNull] /\
    forall (k : nat) (st2 : state) (rest : list block),
      queue st2 = Block this VNull :: rest ->
      tick user (S k) st2 = drop_head (fail (StepThrew TypeError) st2).
Proof.
  intros Hruns Hwaits. do 3 eexists.
  split; [by apply interceptor_host|]. split; [reflexivity|].
  intros k st2 rest Hq. unfold tick. by rewrite Hq.
Qed.

(** X16: each activation has a latch of its own.  After two calls of the
    interceptor, running the settlement callback of the first sets the
    first latch and leaves the second false. *)
Theorem latches_are_private (stack k : nat)
    (runs waitsFor this runFn1 expectFn1 timeOut1 runFn2 expectFn2 timeOut2 v : value)
    (st : state) :
  code_of (heap st) runs = Some HostRuns ->
  code_of (heap st) waitsFor = Some HostWaitsFor ->
  let st1 := final (interceptor (call user (S stack)) runs waitsFor this
                      runFn1 expectFn1 timeOut1 st) in
  let st2 := final (interceptor (call user (S stack)) runs waitsFor this
                      runFn2 expectFn2 timeOut2 st1) in
  let onRel1 := VRef (length (heap st)) in
  results st2 = results st ++ [false; false] /\
  results (final (call user (S k) onRel1 VUndefined [v] st2))
  = results st ++ [true; false].
Proof.
  intros Hruns Hwaits st1 st2 onRel1.
  assert (E1 : st1 = scheduled st this runFn1 expectFn1 timeOut1).
  { unfold st1. by rewrite interceptor_host. }
  assert (E2 : st2 = scheduled st1 this runFn2 expectFn2 timeOut2).
  { unfold st2. rewrite interceptor_host; [done| |];
      rewrite E1; cbn [heap scheduled]; by apply code_of_app. }
  assert (R2 : results st2 = results st ++ [false; false]).
  { rewrite E2, E1. cbn [results scheduled]. by rewrite <- app_assoc. }
  split; [exact R2|].
  assert (Hc : code_of (heap st2) onRel1 = Some (OnReleaseWait (length (results st)))).
  { rewrite E2. cbn [heap scheduled]. apply code_of_app.
    destruct (scheduled_closures this runFn1 expectFn1 timeOut1 st) as (H & _).
    rewrite E1. exact H. }
  erewrite call_code by exact Hc. cbv iota.
  unfold onReleaseWait. cbn [final results set_results]. rewrite R2.
  rewrite insert_app_r_alt by lia. by rewrite Nat.sub_diag.
Qed.

End Activations.

Lemma null_followUp_is_scheduled_witness :
  exists st' step latch,
    interceptor (call Sample.user0 1) Sample.runs0 Sample.waitsFor0 Sample.spec
      Sample.body VNull VUndefined Sample.st0
    = Ok VUndefined st' /\
    queue st' = queue Sample.st0
                  ++ [Block Sample.spec step; WaitsForBlock Sample.spec latch VUndefined 0;
                      Block Sample.spec VNull] /\
    forall (k : nat) (st2 : state) (rest : list block),
      queue st2 = Block Sample.spec VNull :: rest ->
      tick Sample.user0 (S k) st2 = drop_head (fail (StepThrew TypeError) st2).
Proof.
  apply (null_followUp_is_scheduled Sample.user0 0 Sample.runs0 Sample.waitsFor0
           Sample.spec Sample.body VUndefined Sample.st0);
    reflexivity.
Defined.

Lemma latches_are_private_witness :
  let st1 := final (interceptor (call Sample.user0 1) Sample.runs0 Sample.waitsFor0
                      Sample.spec Sample.body Sample.followUp VUndefined Sample.st0) in
  let st2 := final (interceptor (call Sample.user0 1) Sample.runs0 Sample.waitsFor0
                      Sample.spec Sample.syncBody VUndefined VUndefined st1) in
  let onRel1 := VRef (length (heap Sample.st0)) in
  results st2 = results Sample.st0 ++ [false; false] /\
  results (final (call Sample.user0 1 onRel1 VUndefined [VNum 5] st2))
  = results Sample.st0 ++ [true; false].
Proof.
  apply (latches_are_private Sample.user0 0 0 Sample.runs0 Sample.waitsFor0
           Sample.spec Sample.body Sample.followUp VUndefined
           Sample.syncBody VUndefined VUndefined (VNum 5) Sample.st0);
    reflexivity.
Defined.

(** ** Which handle the entry point installs on (l.80-105) *)

(** X17: the entry point installs on the handle it was given when that is
    truthy, without looking at the environment; in Node, given a falsy one,
    it installs on the [exports] of the first Jasmine module of the tree of
    [require.main], without reading the global [jasmine]. *)
Theorem module_exports_resolution (env : environment) (target : value) (st : state) :
  (truthy target = true -> module_exports env target st = jasmineAsPromised target st) /\
  (forall main,
      truthy target = false ->
      real_node env = true ->
      require_main env = Some main ->
      first_target (path_join (path_sep env) ["jasmine"; "lib"; "jasmine.js"]) main
      <> VUndefined ->
      module_exports env target st
      = jasmineAsPromised
          (first_target (path_join (path_sep env) ["jasmine"; "lib"; "jasmine.js"]) main)
          st).
Proof.
  split.
  - intros Ht. unfold module_exports. by rewrite Ht.
  - intros main Ht Hnode Hmain Hfound. unfold module_exports.
    rewrite Ht, Hnode, Hmain. simpl negb. cbv iota.
    rewrite findNodeJSTarget_find. cbv zeta. cbn [negb].
    unfold bind. rewrite isDefined_eval.
    by rewrite bool_decide_eq_true_2.
Qed.

Lemma module_exports_resolution_witness :
  module_exports emulation_without_jasmine Sample.jasmine Sample.st0
  = jasmineAsPromised Sample.jasmine Sample.st0 /\
  module_exports node_with_jasmine VUndefined Sample.st0
  = jasmineAsPromised
      (first_target (path_join (path_sep node_with_jasmine) ["jasmine"; "lib"; "jasmine.js"])
         (NModule "/work/spec/runner.js" (VRef 5)
            [NModule "/work/node_modules/q/q.js" (VRef 11) [];
             NModule "/usr/lib/node_modules/jasmine-node/lib/jasmine-node/index.js" (VRef 11)
               [NModule "/usr/lib/node_modules/jasmine/lib/jasmine.js" (VRef 0) []]]))
      Sample.st0.
Proof.
  split.
  - apply (module_exports_resolution emulation_without_jasmine Sample.jasmine Sample.st0).
    reflexivity.
  - apply (module_exports_resolution node_with_jasmine VUndefined Sample.st0);
      [reflexivity | reflexivity | reflexivity | vm_compute; discriminate].
Defined.


Lemma adapter_user_thenable_witness :
  calls (final (adapter (call Sample2.user0 1) Sample2.thenableBody 0
                  Sample2.onReleaseWaitFn Sample2.st1))
  = calls (final (call Sample2.user0 1 Sample2.thenableBody VUndefined [] Sample2.st1))
    ++ [(3, Sample2.thenable, [Sample2.onReleaseWaitFn; Sample2.onReleaseWaitFn])].
Proof.
  apply (adapter_user_thenable Sample2.user0 0 3 Sample2.thenableBody
           Sample2.onReleaseWaitFn Sample2.thenable 0 Sample2.st1
           (final (call Sample2.user0 1 Sample2.thenableBody VUndefined [] Sample2.st1)));
    vm_compute; reflexivity.
Defined.

(** ** Functions that have a [then] *)

(** X20: a body that returns a function is never waited for, even when the
    function has a [then]: the detector wants [typeof] "object", so the
    adapter releases the latch in the step's own turn and the [then] is not
    called. *)
Theorem callable_thenable_not_awaited (user : user_semantics) (n r l : nat)
    (runFn onRel : value) (c : closure) (st st1 : state) :
  call user n runFn VUndefined [] st = Ok (VRef l) st1 ->
  code (obj_at (heap st1) l) = Some c ->
  adapter (call user n) runFn r onRel st
  = Ok VUndefined (set_results (<[r := true]> (results st1)) st1).
Proof.
  intros Hbody Hc. apply adapter_synchronous with (v := VRef l); [exact Hbody|].
  by apply isPromise_function_object with c.
Qed.

Lemma callable_thenable_not_awaited_witness :
  adapter (call Sample2.user0 1) Sample2.callableThenableBody 0 Sample2.onReleaseWaitFn
    Sample2.deferred_scheduled
  = Ok VUndefined
      (set_results
         (<[0 := true]>
            (results (final (call Sample2.user0 1 Sample2.callableThenableBody
                               VUndefined [] Sample2.deferred_scheduled))))
         (final (call Sample2.user0 1 Sample2.callableThenableBody VUndefined []
                   Sample2.deferred_scheduled))).
Proof.
  apply (callable_thenable_not_awaited Sample2.user0 1 0 24
           Sample2.callableThenableBody Sample2.onReleaseWaitFn (UserFn 10)
           Sample2.deferred_scheduled
           (final (call Sample2.user0 1 Sample2.callableThenableBody VUndefined []
                     Sample2.deferred_scheduled)));
    vm_compute; reflexivity.
Defined.
